(** * Red Hat learning-path service: content search, curation and plan recovery

    A shallow embedding of [src/services/redhatContentService.js] and
    [src/services/llmService.js], with the properties the specification
    states about them.

    Strings.  A JavaScript string is a sequence of UTF-16 code units.  The
    development works with strings whose code units lie in U+0000..U+00FF,
    represented by [string]: the character with code [n] stands for the code
    unit [n].  On that range [toLowerCase], [trim] and the regular-expression
    classes [\s] and [\w] are given exactly as ECMAScript defines them.

    Platform.  [URL], [URLSearchParams], [decodeURIComponent] and [JSON.parse]
    are built-ins of the runtime, not code of the repository.  They enter the
    development as section variables, so every theorem holds whatever those
    built-ins compute. *)

From Stdlib Require Import ZArith NArith Bool Ascii DecimalString Sorted.
From stdpp Require Import base list strings gmap.

Open Scope Z_scope.

(** ** String primitives of the runtime *)

Module JS.

Definition code (c : ascii) : N := N_of_ascii c.

Definition between (lo hi : N) (c : ascii) : bool :=
  ((lo <=? code c) && (code c <=? hi))%N.

(** [\s]: TAB, LF, VT, FF, CR, SPACE and NO-BREAK SPACE. *)
Definition is_space (c : ascii) : bool :=
  between 9 13 c || (code c =? 32)%N || (code c =? 160)%N.

Definition is_digit (c : ascii) : bool := between 48 57 c.
Definition is_lower (c : ascii) : bool := between 97 122 c.
Definition is_upper (c : ascii) : bool := between 65 90 c.

(** [\w]: ASCII letters, digits and the underscore. *)
Definition is_word (c : ascii) : bool :=
  is_lower c || is_upper c || is_digit c || (code c =? 95)%N.

(** Upper-case letters of the range: A-Z, and U+00C0..U+00DE without the
    multiplication sign U+00D7. *)
Definition has_lower (c : ascii) : bool :=
  is_upper c || (between 192 222 c && negb (code c =? 215)%N).

Definition lower_char (c : ascii) : ascii :=
  if has_lower c then ascii_of_N (code c + 32) else c.

Fixpoint toLowerCase (s : string) : string :=
  match s with
  | EmptyString => EmptyString
  | String c s' => String (lower_char c) (toLowerCase s')
  end.

Definition is_empty (s : string) : bool :=
  match s with EmptyString => true | String _ _ => false end.

(** Truthiness of a string value: only the empty string is falsy. *)
Definition truthy (s : string) : bool := negb (is_empty s).

Fixpoint startsWith (s p : string) {struct p} : bool :=
  match p, s with
  | EmptyString, _ => true
  | String _ _, EmptyString => false
  | String a p', String b s' => if Ascii.eqb a b then startsWith s' p' else false
  end.

(** [s.includes(k)] *)
Fixpoint includes (s k : string) : bool :=
  startsWith s k ||
  match s with
  | EmptyString => false
  | String _ s' => includes s' k
  end.

Fixpoint endsWith (s p : string) : bool :=
  String.eqb s p ||
  match s with
  | EmptyString => false
  | String _ s' => endsWith s' p
  end.

Fixpoint trimStart (s : string) : string :=
  match s with
  | EmptyString => EmptyString
  | String c s' => if is_space c then trimStart s' else s
  end.

Fixpoint trimEnd (s : string) : string :=
  match s with
  | EmptyString => EmptyString
  | String c s' =>
      let t := trimEnd s' in
      if is_space c && is_empty t then EmptyString else String c t
  end.

Definition trim (s : string) : string := trimEnd (trimStart s).

(** [s.replace(/\s+/g, ' ')]: every maximal run of white space becomes one
    space.  [in_run] tells that the previous code unit was white space. *)
Fixpoint collapse_from (in_run : bool) (s : string) : string :=
  match s with
  | EmptyString => EmptyString
  | String c s' =>
      if is_space c
      then (if in_run then collapse_from true s'
            else String " "%char (collapse_from true s'))
      else String c (collapse_from false s')
  end.

Definition collapse_spaces (s : string) : string := collapse_from false s.

(** [s.replace(/[^...]/g, '')]: keep the code units of the class. *)
Fixpoint keep (p : ascii -> bool) (s : string) : string :=
  match s with
  | EmptyString => EmptyString
  | String c s' => if p c then String c (keep p s') else keep p s'
  end.

(** [s.substring(0, n)] *)
Fixpoint take (n : nat) (s : string) : string :=
  match n, s with
  | O, _ => EmptyString
  | S _, EmptyString => EmptyString
  | S n', String c s' => String c (take n' s')
  end.

Fixpoint drop (n : nat) (s : string) : string :=
  match n, s with
  | O, _ => s
  | S _, EmptyString => EmptyString
  | S n', String _ s' => drop n' s'
  end.

(** [s.replace(pat, '')] with a string pattern: the first occurrence of
    [pat] is removed. *)
Fixpoint remove_first (pat s : string) : string :=
  if startsWith s pat then drop (String.length pat) s
  else match s with
       | EmptyString => EmptyString
       | String c s' => String c (remove_first pat s')
       end.

(** [s.replace(/^\.\.\.\s*/, '')] *)
Definition strip_leading_ellipsis (s : string) : string :=
  if startsWith s "..." then trimStart (drop 3 s) else s.

(** [s.replace(/\s*\.\.\.$/, '')]: the leftmost match starts at the white
    space that precedes the final three dots. *)
Definition strip_trailing_ellipsis (s : string) : string :=
  if endsWith s "..." then trimEnd (take (String.length s - 3) s) else s.

(** [s.split(/\s+/)].  The head of the result is the piece that starts at
    the current position. *)
Fixpoint split_from (in_sep : bool) (s : string) : list string :=
  match s with
  | EmptyString => [EmptyString]
  | String c s' =>
      if is_space c
      then (if in_sep then split_from true s'
            else EmptyString :: split_from true s')
      else match split_from false s' with
           | t :: ts => String c t :: ts
           | [] => [String c EmptyString]
           end
  end.

Definition split_spaces (s : string) : list string := split_from false s.

(** [s.split(sep)] for a separator of one code unit. *)
Fixpoint split_char (sep : ascii) (s : string) : list string :=
  match s with
  | EmptyString => [EmptyString]
  | String c s' =>
      if Ascii.eqb c sep then EmptyString :: split_char sep s'
      else match split_char sep s' with
           | t :: ts => String c t :: ts
           | [] => [String c EmptyString]
           end
  end.

(** [xs.sort(cmp)].  ECMAScript requires the sort to be stable; for a
    comparator that is a consistent ordering the result is therefore fixed,
    and it is the list that stable insertion produces. *)
Fixpoint insert {A} (cmp : A -> A -> Z) (x : A) (l : list A) : list A :=
  match l with
  | [] => [x]
  | y :: l' => if cmp x y <=? 0 then x :: l else y :: insert cmp x l'
  end.

Definition sort {A} (cmp : A -> A -> Z) (l : list A) : list A :=
  fold_right (insert cmp) [] l.

(** [[...new Set(xs)]]: the values in order of first insertion.  [seen] is
    the set built so far. *)
Fixpoint set_values_from (seen : gset string) (xs : list string) : list string :=
  match xs with
  | [] => []
  | x :: rest =>
      if decide (x ∈ seen) then set_values_from seen rest
      else x :: set_values_from ({[x]} ∪ seen) rest
  end.

Definition set_values (xs : list string) : list string := set_values_from ∅ xs.

(** [xs.join(sep)] *)
Fixpoint join (sep : string) (xs : list string) : string :=
  match xs with
  | [] => EmptyString
  | [x] => x
  | x :: rest => x +:+ sep +:+ join sep rest
  end.

End JS.


(** ** Content search and curation ([redhatContentService.js]) *)

Module Content.

Import JS.

(** The six labels of [determineContentType]. *)
Inductive ContentType :=
  | video | documentation | training | article | pdf | unknown.

Definition label (t : ContentType) : string :=
  match t with
  | video => "video"
  | documentation => "documentation"
  | training => "training"
  | article => "article"
  | pdf => "pdf"
  | unknown => "unknown"
  end.

(** One discovered resource, as [performDuckDuckGoSearch] builds it. *)
Record ContentResult := {
  title : string;
  url : string;
  description : string;
  type : ContentType;
  source : string;
  searchQuery : string;
  domain : string
}.

Definition redhatKeywords : list string :=
  [ "red hat"; "redhat"; "openshift"; "ansible"; "rhel";
    "fedora"; "centos"; "jboss"; "wildfly"; "ceph";
    "gluster"; "satellite"; "insights"; "quay"; "tekton" ].

Definition redhatDomains : list string :=
  [ "redhat.com"; "tv.redhat.com"; "access.redhat.com";
    "docs.redhat.com"; "docs.ansible.com"; "console.redhat.com";
    "catalog.redhat.com"; "developers.redhat.com" ].

Definition hasRedHatKeywords (title url description : string) : bool :=
  let content := toLowerCase (title +:+ " " +:+ url +:+ " " +:+ description) in
  existsb (fun keyword => includes content keyword) redhatKeywords.

Definition hasRedHatDomain (url : string) : bool :=
  existsb (fun domain => includes (toLowerCase url) domain) redhatDomains.

Definition isRedHatRelated (title url description : string) : bool :=
  if includes url "youtube.com" then
    hasRedHatKeywords title url description &&
    (includes (toLowerCase title) "red hat" ||
     includes (toLowerCase description) "red hat" ||
     includes (toLowerCase title) "openshift" ||
     includes (toLowerCase title) "ansible")
  else
    hasRedHatKeywords title url description || hasRedHatDomain url.

(** The relevance rule as the specification words it: a keyword in the text
    or an official domain in the URL and, on the video-hosting domain, the
    brand name or a flagship product name in the title or in the description.
    It is compared with [isRedHatRelated] below. *)
Definition isRelated_as_specified (title url description : string) : bool :=
  (hasRedHatKeywords title url description || hasRedHatDomain url) &&
  (if includes url "youtube.com"
   then existsb (fun name => includes (toLowerCase title) name ||
                             includes (toLowerCase description) name)
                ["red hat"; "openshift"; "ansible"]
   else true).

(** The code units [cleanTitle] keeps: word characters, white space, the
    punctuation - ( ) [ ] . , : ; ! ? and the two quote marks (the apostrophe,
    and the double quote, code 34). *)
Definition title_char (c : ascii) : bool :=
  is_word c || is_space c || includes "-()[].,:;!?'" (String c EmptyString)
  || (code c =? 34)%N.

Definition cleanTitle (title : string) : string :=
  trim (keep title_char (collapse_spaces title)).

Definition cleanDescription (description : string) : string :=
  trim (strip_trailing_ellipsis (strip_leading_ellipsis (collapse_spaces description))).

Definition determineContentType (url title : string) : ContentType :=
  if negb (truthy url) then unknown else
  let urlLower := toLowerCase url in
  let titleLower := toLowerCase title in
  if includes urlLower "youtube.com" || includes urlLower "youtu.be" then video
  else if includes urlLower "tv.redhat.com" then video
  else if includes urlLower "docs." ||
          includes urlLower "documentation" ||
          includes urlLower "access.redhat.com" ||
          includes titleLower "documentation" ||
          includes titleLower "guide" then documentation
  else if includes urlLower "training" ||
          includes urlLower "certification" ||
          includes urlLower "course" ||
          includes titleLower "training" ||
          includes titleLower "certification" ||
          includes titleLower "course" then training
  else if includes urlLower ".pdf" then pdf
  else if includes titleLower "video" ||
          includes titleLower "tutorial" ||
          includes titleLower "demo" then video
  else article.

(** The object literal [typeOrder] of the sort comparator. *)
Definition typeOrder (t : ContentType) : option Z :=
  match t with
  | video => Some 1
  | training => Some 2
  | documentation => Some 3
  | article => Some 4
  | pdf => Some 5
  | unknown => None
  end.

(** [typeOrder[t] || 6] *)
Definition order (t : ContentType) : Z :=
  match typeOrder t with
  | Some n => if n =? 0 then 6 else n
  | None => 6
  end.

Definition isRedHatDomain (r : ContentResult) : bool :=
  includes (domain r) "redhat.com".

(** The comparator handed to [sort] at the end of [deduplicateResults]. *)
Definition compareResults (a b : ContentResult) : Z :=
  let aIsRedHatDomain := isRedHatDomain a in
  let bIsRedHatDomain := isRedHatDomain b in
  if aIsRedHatDomain && negb bIsRedHatDomain then -1
  else if negb aIsRedHatDomain && bIsRedHatDomain then 1
  else order (type a) - order (type b).

Definition normalizedTitle (r : ContentResult) : string :=
  trim (collapse_spaces
          (keep (fun c => is_lower c || is_digit c || is_space c)
                (toLowerCase (title r)))).

Definition topicKeywords : list (string * list string) :=
  [ ("openshift", ["openshift"; "kubernetes"; "k8s"; "containers"; "orchestration"; "pods"; "deployment"]);
    ("ansible", ["ansible"; "automation"; "playbook"; "configuration management"; "infrastructure as code"]);
    ("rhel", ["rhel"; "red hat enterprise linux"; "linux"; "system administration"; "centos"; "fedora"]);
    ("ai", ["ai"; "artificial intelligence"; "machine learning"; "ml"; "data science"; "neural networks"]);
    ("cloud", ["cloud"; "aws"; "azure"; "gcp"; "hybrid cloud"; "multi-cloud"; "cloud native"]);
    ("security", ["security"; "selinux"; "compliance"; "vulnerability"; "cybersecurity"; "encryption"]);
    ("networking", ["networking"; "network"; "tcp"; "ip"; "dns"; "firewall"; "load balancer"]);
    ("storage", ["storage"; "ceph"; "gluster"; "persistent volume"; "block storage"; "object storage"]);
    ("monitoring", ["monitoring"; "prometheus"; "grafana"; "observability"; "metrics"; "alerting"]);
    ("devops", ["devops"; "ci/cd"; "pipeline"; "deployment"; "continuous integration"; "gitops"]);
    ("virtualization", ["virtualization"; "vm"; "virtual machine"; "hypervisor"; "kvm"; "qemu"]);
    ("middleware", ["middleware"; "jboss"; "wildfly"; "apache"; "tomcat"; "application server"]) ].

Definition stopwords : list string :=
  [ "want"; "learn"; "need"; "help"; "with"; "about"; "from"; "that";
    "this"; "they"; "have"; "will"; "been" ].

(** [keywords.some(keyword => input.includes(keyword))] *)
Definition bucket_matches (input : string) (keywords : list string) : bool :=
  existsb (fun keyword => includes input keyword) keywords.

(** The topics pushed by the loop over [Object.entries(topicKeywords)]. *)
Definition matched_topics (input : string) : list string :=
  map fst (List.filter (fun entry => bucket_matches input (snd entry)) topicKeywords).

(** The words of the fall-back branch, before [slice(0, 3)]. *)
Definition meaningful_words (input : string) : list string :=
  List.filter (fun word => negb (existsb (String.eqb word) stopwords))
    (List.filter (fun word => (3 <? Z.of_nat (String.length word)))
       (split_spaces input)).

Definition extractTopics (userInput : string) : list string :=
  let input := toLowerCase userInput in
  let topics := matched_topics input in
  let topics :=
    if (Z.of_nat (length topics) =? 0)
    then topics ++ firstn 3 (meaningful_words input)
    else topics in
  set_values topics.

(** The position of a result in the final order: the official-domain tier
    first, the priority of the type within the tier.  The comparator of
    [deduplicateResults] orders by it (see [compareResults_rank]). *)
Definition rank (r : ContentResult) : Z :=
  (if isRedHatDomain r then 0 else 6) + order (type r).

(** A result passes the guard of the loop of [deduplicateResults] when its
    title and its URL are not empty. *)
Definition has_title_and_url (r : ContentResult) : bool :=
  truthy (title r) && truthy (url r).

(** *** Effects of a category search

    A category search sends requests to the search engine and fills the local
    array [searchResults]; both survive an exception.  [issued] lists the
    queries sent so far, oldest first. *)

Inductive completion (A : Type) :=
  | Normal (a : A)
  | Throw (message : string).
Arguments Normal {A} a.
Arguments Throw {A} message.

Record Search := {
  issued : list string;
  searchResults : list ContentResult
}.

Definition Eff (A : Type) : Type := Search -> completion A * Search.

Definition ret {A} (a : A) : Eff A := fun st => (Normal a, st).

Definition bind {A B} (c : Eff A) (k : A -> Eff B) : Eff B :=
  fun st =>
    match c st with
    | (Normal a, st') => k a st'
    | (Throw e, st') => (Throw e, st')
    end.

Definition throw {A} (message : string) : Eff A := fun st => (Throw message, st).

(** [try { body } catch (error) { handler }] *)
Definition try_catch {A} (body : Eff A) (handler : string -> Eff A) : Eff A :=
  fun st =>
    match body st with
    | (Normal a, st') => (Normal a, st')
    | (Throw e, st') => handler e st'
    end.

(** [for (const x of xs) { body }] *)
Fixpoint for_of {X} (xs : list X) (body : X -> Eff unit) : Eff unit :=
  match xs with
  | [] => ret tt
  | x :: rest => bind (body x) (fun _ => for_of rest body)
  end.

Notation "x <- c1 ;; c2" := (bind c1 (fun x => c2))
  (at level 100, c1 at next level, right associativity).

(** *** The scraped page

    One result block of the page, as the selectors of the row handler read it:
    the text and [href] of the first title link, the text of the first
    snippet, the text and [href] of the first link of the block, and the text
    of the whole block.  A missing element gives the empty text and no
    [href]. *)
Record Row := {
  titleLinkText : string;
  titleLinkHref : option string;
  snippetText : string;
  anchorText : string;
  anchorHref : option string;
  blockText : string
}.

(** A parsed page: the blocks each selector matches, in document order. *)
Definition Document : Type := string -> list Row.

(** What a request to the search engine comes to: a rejected request or a
    page that cannot be loaded, or a page. *)
Inductive Response :=
  | Failed (message : string)
  | Page (doc : Document).

Definition resultSelectors : list string :=
  [ ".result"; ".results_links"; ".result__body" ].

Section Service.

(** [new URL(url).hostname], [None] when the constructor throws. *)
Variable URL_hostname : string -> option string.

(** [decodeURIComponent(new URLSearchParams(q).get('uddg'))], [None] when
    either call throws. *)
Variable uddg_param : string -> option string.

(** [this.maxResults] *)
Variable maxResults : Z.

(** The answer of the search engine to the [n]-th request of a search. *)
Variable network : nat -> string -> Response.

Definition extractDomain (url : string) : string :=
  match URL_hostname url with
  | Some hostname => toLowerCase hostname
  | None => "unknown"
  end.

Definition dedup_key (result : ContentResult) : string :=
  take 50 (normalizedTitle result) +:+ "-" +:+ extractDomain (url result).

(** One turn of the loop of [deduplicateResults] on the state
    [(seen, uniqueResults)]. *)
Definition dedup_step (st : gset string * list ContentResult)
    (result : ContentResult) : gset string * list ContentResult :=
  let '(seen, uniqueResults) := st in
  if negb (truthy (title result)) || negb (truthy (url result)) then st
  else
    let key := dedup_key result in
    if decide (key ∈ seen) then st
    else ({[key]} ∪ seen, uniqueResults ++ [result]).

(** The array [uniqueResults] when the loop ends. *)
Definition uniqueResults (results : list ContentResult) : list ContentResult :=
  snd (fold_left dedup_step results (∅, [])).

Definition deduplicateResults (results : list ContentResult) : list ContentResult :=
  sort compareResults (uniqueResults results).

(** The same loop by recursion on the input, for the proofs: what is appended
    to [uniqueResults] from [results] when [seen] holds the keys met so far
    (see [uniqueResults_first_seen]). *)
Fixpoint first_seen (seen : gset string) (results : list ContentResult)
    : list ContentResult :=
  match results with
  | [] => []
  | result :: rest =>
      if negb (truthy (title result)) || negb (truthy (url result))
      then first_seen seen rest
      else if decide (dedup_key result ∈ seen) then first_seen seen rest
      else result :: first_seen ({[dedup_key result]} ∪ seen) rest
  end.

(** The row handler of [performDuckDuckGoSearch]. *)
Definition row_title (row : Row) : string :=
  let title := trim (titleLinkText row) in
  if truthy title then title else trim (anchorText row).

Definition truthy_href (href : option string) : bool :=
  match href with
  | Some u => truthy u
  | None => false
  end.

Definition row_href (row : Row) : option string :=
  if truthy_href (titleLinkHref row) then titleLinkHref row else anchorHref row.

Definition row_description (row : Row) (title : string) : string :=
  let description := trim (snippetText row) in
  if truthy description then description
  else take 200 (trim (remove_first title (blockText row))).

Definition clean_url (href : option string) : option string :=
  match href with
  | Some u =>
      if truthy u then
        if startsWith u "/l/?uddg=" then uddg_param (nth 1 (split_char "?" u) "")
        else if startsWith u "/" then Some ("https://duckduckgo.com" +:+ u)
        else Some u
      else href
  | None => None
  end.

Definition process_row (source query : string) (row : Row) : option ContentResult :=
  let title := row_title row in
  let description := row_description row title in
  match clean_url (row_href row) with
  | Some url =>
      if truthy title && truthy url && isRedHatRelated title url description
      then Some {| title := cleanTitle title;
                   url := url;
                   description := cleanDescription description;
                   type := determineContentType url title;
                   source := source;
                   searchQuery := query;
                   domain := extractDomain url |}
      else None
  | None => None
  end.

(** The loop over [resultSelectors] on the state [(results, foundResults)]:
    a selector is tried only while no result was found, and at most
    [maxResults] of its blocks are read. *)
Fixpoint scan_selectors (source query : string) (doc : Document)
    (selectors : list string) (results : list ContentResult)
    (foundResults : bool) : list ContentResult :=
  match selectors with
  | [] => results
  | selector :: rest =>
      if foundResults then results
      else
        let pushed :=
          omap (process_row source query)
               (firstn (Z.to_nat maxResults) (doc selector)) in
        scan_selectors source query doc rest (results ++ pushed)
          (negb (Z.of_nat (length pushed) =? 0))
  end.

Definition scrape (source query : string) (doc : Document) : list ContentResult :=
  scan_selectors source query doc resultSelectors [] false.

(** [await this.axiosInstance.get(searchUrl, ...)] followed by
    [cheerio.load(response.data)]. *)
Definition fetch_page (query : string) : Eff Document :=
  fun st =>
    let st' := {| issued := issued st ++ [query];
                  searchResults := searchResults st |} in
    match network (length (issued st)) query with
    | Failed message => (Throw message, st')
    | Page doc => (Normal doc, st')
    end.

(** [performDuckDuckGoSearch]: the [catch] block logs and falls off the end
    of the function, so a failed query yields [undefined], here [None]. *)
Definition performDuckDuckGoSearch (query source : string)
    : Eff (option (list ContentResult)) :=
  try_catch
    (doc <- fetch_page query ;;
     ret (Some (scrape source query doc)))
    (fun _ => ret None).

(** [searchResults.push(...results)]: spreading [undefined] throws. *)
Definition push_results (results : option (list ContentResult)) : Eff unit :=
  match results with
  | Some rs =>
      fun st => (Normal tt, {| issued := issued st;
                               searchResults := searchResults st ++ rs |})
  | None => throw "Spread syntax requires ...iterable[Symbol.iterator] to be a function"
  end.

(** The body shared by the three category searches: the loop over the topics
    with its [try]/[catch] around the loop over the queries of one topic. *)
Definition search_topics (queries : string -> list string) (source : string)
    (topics : list string) : Eff unit :=
  for_of topics (fun topic =>
    try_catch
      (for_of (queries topic) (fun query =>
         results <- performDuckDuckGoSearch query source ;;
         push_results results))
      (fun _ => ret tt)).

(** A category search returns its results; [requests] records the queries
    it sent. *)
Record Outcome := {
  results : list ContentResult;
  requests : list string
}.

Definition category_search (queries : string -> list string) (source : string)
    (topics : list string) : Outcome :=
  match search_topics queries source topics {| issued := []; searchResults := [] |} with
  | (Normal _, st) =>
      {| results := deduplicateResults (searchResults st); requests := issued st |}
  | (Throw _, st) =>
      {| results := []; requests := issued st |}
  end.

Definition quoted (s : string) : string :=
  String (ascii_of_N 34) s +:+ String (ascii_of_N 34) EmptyString.

Definition docs_queries (topic : string) : list string :=
  [ quoted "Red Hat" +:+ " " +:+ quoted topic +:+ " documentation" ].

Definition training_queries (topic : string) : list string :=
  [ quoted "Red Hat training" +:+ " " +:+ quoted topic;
    quoted "Red Hat certification" +:+ " " +:+ quoted topic ].

Definition videos_queries (topic : string) : list string :=
  [ "site:tv.redhat.com " +:+ quoted topic ].

Definition searchRedHatDocs (topics : list string) : Outcome :=
  category_search docs_queries "Red Hat Docs" topics.

Definition searchRedHatTraining (topics : list string) : Outcome :=
  category_search training_queries "Red Hat Training" topics.

Definition searchRedHatVideos (topics : list string) : Outcome :=
  category_search videos_queries "Red Hat Videos" topics.

End Service.

End Content.

(** ** Learning-path generation ([llmService.js]) *)

Module LLM.

Import JS.

(** A number of the runtime that is not NaN: a finite [mantissa * 2^exponent]
    or an infinity. *)
Inductive number :=
  | Finite (mantissa exponent : Z)
  | Infinite (negative : bool).

(** The values [JSON.parse] produces.  [Obj] lists the own properties of an
    object, each key once. *)
#[warnings="-register-all"] Inductive value :=
  | Null
  | Bool (b : bool)
  | Num (n : number)
  | Str (s : string)
  | Arr (items : list value)
  | Obj (props : list (string * value)).

Inductive completion (A : Type) :=
  | Normal (a : A)
  | Throw (message : string).
Arguments Normal {A} a.
Arguments Throw {A} message.

Fixpoint assoc (key : string) (props : list (string * value)) : option value :=
  match props with
  | [] => None
  | (k, v) :: rest => if String.eqb k key then Some v else assoc key rest
  end.

(** [v.key] for a key that no prototype defines, such as [title] and
    [phases]: reading a property of [null] throws, a missing property reads
    as [undefined], here [None]. *)
Definition get (v : value) (key : string) : completion (option value) :=
  match v with
  | Null => Throw ("Cannot read properties of null (reading '" +:+ key +:+ "')")
  | Obj props => Normal (assoc key props)
  | _ => Normal None
  end.

Definition number_truthy (n : number) : bool :=
  match n with
  | Finite mantissa _ => negb (mantissa =? 0)
  | Infinite _ => true
  end.

(** Truthiness of the result of a property read. *)
Definition truthy (v : option value) : bool :=
  match v with
  | None => false
  | Some Null => false
  | Some (Bool b) => b
  | Some (Num n) => number_truthy n
  | Some (Str s) => JS.truthy s
  | Some (Arr _) => true
  | Some (Obj _) => true
  end.

(** The longest prefix of [s] that ends with [c]. *)
Fixpoint through_last (c : ascii) (s : string) : option string :=
  match s with
  | EmptyString => None
  | String a s' =>
      match through_last c s' with
      | Some t => Some (String a t)
      | None => if Ascii.eqb a c then Some (String a EmptyString) else None
      end
  end.

(** The suffix of [s] that starts at the first [c]. *)
Fixpoint from_first (c : ascii) (s : string) : option string :=
  match s with
  | EmptyString => None
  | String a s' => if Ascii.eqb a c then Some s else from_first c s'
  end.

(** [s.match(/\{[\s\S]*\}/)]: the greedy match runs from the first opening
    brace to the last closing brace after it. *)
Definition match_braces (s : string) : option string :=
  match from_first "{" s with
  | Some rest => through_last "}" rest
  | None => None
  end.

(** The text handed to [JSON.parse]: the trimmed response, or the brace
    block found in it. *)
Definition extract_json (response : string) : string :=
  let cleanResponse := trim response in
  match match_braces cleanResponse with
  | Some jsonMatch => jsonMatch
  | None => cleanResponse
  end.

Definition strs (xs : list string) : value := Arr (map Str xs).

(** The object of the [catch] block of [parseLearningPathResponse]. *)
Definition fallback (response message : string) : value :=
  Obj [ ("title", Str "Custom Red Hat Learning Path");
        ("description", Str "A personalized learning path based on your interests");
        ("totalEstimatedTime", Str "4-8 weeks");
        ("difficultyLevel", Str "Intermediate");
        ("prerequisites", strs ["Basic Linux knowledge"]);
        ("learningObjectives", strs ["Gain proficiency in Red Hat technologies"]);
        ("phases", Arr [
           Obj [ ("phase", Num (Finite 1 0));
                 ("title", Str "Foundation Phase");
                 ("description", Str "Build foundational knowledge");
                 ("estimatedTime", Str "2-3 weeks");
                 ("difficulty", Str "Beginner");
                 ("resources", Arr []);
                 ("practiceActivities", strs ["Hands-on labs"; "Practice exercises"]);
                 ("assessmentCriteria",
                  strs ["Complete all resources"; "Demonstrate basic understanding"]) ] ]);
        ("certificationPath",
         Obj [ ("recommended", strs ["Red Hat Certified System Administrator (RHCSA)"]);
               ("sequence", strs ["Start with RHCSA foundation"]) ]);
        ("nextSteps",
         strs ["Continue with advanced topics"; "Pursue additional certifications"]);
        ("rawResponse", Str response);
        ("parseError", Str message) ].

Record UserProfile := {
  interests : list string;
  experience : string;
  goals : list string;
  timeCommitment : string;
  preferredLearningStyle : string
}.

(** A resource as [buildUserPrompt] reads it. *)
Record Resource := {
  title : string;
  url : string;
  description : string;
  duration : option string;
  level : option string
}.

(** The three lists [buildUserPrompt] reads; a key may be absent. *)
Record SearchResults := {
  tv : option (list Resource);
  documentation : option (list Resource);
  training : option (list Resource)
}.

Definition nl : string := String (ascii_of_N 10) EmptyString.

Definition lines (xs : list string) : string := join nl xs.

(** [x || 'N/A'] *)
Definition or_NA (x : option string) : string :=
  match x with
  | Some s => if JS.truthy s then s else "N/A"
  | None => "N/A"
  end.

Definition number_string (n : nat) : string :=
  DecimalString.NilEmpty.string_of_uint (Nat.to_uint n).

(** [xs && xs.length > 0] followed by the [forEach] that appends one entry
    for each resource. *)
Definition section (heading : string) (entry : nat -> Resource -> string)
    (xs : option (list Resource)) : string :=
  match xs with
  | Some ((_ :: _) as rs) => heading +:+ String.concat "" (imap entry rs)
  | _ => ""
  end.

Definition buildUserPrompt (userProfile : UserProfile)
    (searchResults : SearchResults) : string :=
  lines [ "Create a personalized Red Hat learning path based on the following user profile:";
          "";
          "USER PROFILE:";
          "- Interests: " +:+ join ", " (interests userProfile);
          "- Experience Level: " +:+ experience userProfile;
          "- Learning Goals: " +:+ join ", " (goals userProfile);
          "- Available Time Commitment: " +:+ timeCommitment userProfile;
          "- Preferred Learning Style: " +:+ preferredLearningStyle userProfile;
          "";
          "AVAILABLE RED HAT CONTENT:";
          "" ]
  +:+ section (nl +:+ "RED HAT TV VIDEOS:" +:+ nl)
        (fun index resource =>
           lines [ number_string (index + 1) +:+ ". " +:+ title resource;
                   "   URL: " +:+ url resource;
                   "   Duration: " +:+ or_NA (duration resource);
                   "   Description: " +:+ description resource;
                   "   ";
                   "" ])
        (tv searchResults)
  +:+ section (nl +:+ "RED HAT DOCUMENTATION:" +:+ nl)
        (fun index resource =>
           lines [ number_string (index + 1) +:+ ". " +:+ title resource;
                   "   URL: " +:+ url resource;
                   "   Description: " +:+ description resource;
                   "   ";
                   "" ])
        (documentation searchResults)
  +:+ section (nl +:+ "RED HAT TRAINING COURSES:" +:+ nl)
        (fun index resource =>
           lines [ number_string (index + 1) +:+ ". " +:+ title resource;
                   "   URL: " +:+ url resource;
                   "   Level: " +:+ or_NA (level resource);
                   "   Duration: " +:+ or_NA (duration resource);
                   "   Description: " +:+ description resource;
                   "   ";
                   "" ])
        (training searchResults)
  +:+ lines [ "";
              "Please create a comprehensive, structured learning path that:";
              "1. Matches the user's interests and experience level";
              "2. Achieves their stated learning goals";
              "3. Fits within their time commitment";
              "4. Accommodates their preferred learning style";
              "5. Uses only the Red Hat content provided above";
              "6. Progresses logically from foundational to advanced concepts";
              "7. Includes practical, hands-on activities";
              "8. Suggests relevant Red Hat certifications";
              "";
              "Return ONLY a valid JSON object following the specified format." ].

(** The result of [checkOllamaHealth]. *)
Record Health := {
  healthy : bool;
  error : string
}.

Section Service.

(** [JSON.parse]: the parsed value, or the message of the [SyntaxError]. *)
Variable JSON_parse : string -> completion value.

(** [this.model] *)
Variable model : string.

(** [await this.ollama.list()]: the names of the installed models, or the
    message of the error the client throws. *)
Variable ollama_list : completion (list string).

(** [await this.ollama.generate({ prompt, ... })]: the completion text
    [response.response], or the message of the error the client throws. *)
Variable ollama_generate : string -> completion string.

(** The text [buildSystemPrompt] returns, a constant of the source. *)
Variable systemPrompt : string.

Definition checkOllamaHealth : Health :=
  match ollama_list with
  | Normal names =>
      if existsb (fun name => String.eqb name model) names
      then {| healthy := true; error := "" |}
      else {| healthy := false; error := "Model " +:+ model +:+ " not found" |}
  | Throw message => {| healthy := false; error := message |}
  end.

(** The [try] block of [parseLearningPathResponse]. *)
Definition parse_body (response : string) : completion value :=
  match JSON_parse (extract_json response) with
  | Throw message => Throw message
  | Normal parsed =>
      match get parsed "title" with
      | Throw message => Throw message
      | Normal t =>
          if negb (truthy t) then Throw "Invalid learning path structure"
          else
            match get parsed "phases" with
            | Throw message => Throw message
            | Normal p =>
                if negb (truthy p) then Throw "Invalid learning path structure"
                else Normal parsed
            end
      end
  end.

Definition parseLearningPathResponse (response : string) : value :=
  match parse_body response with
  | Normal parsed => parsed
  | Throw message => fallback response message
  end.

(** The [try] block of [generateLearningPath]. *)
Definition generate_body (userProfile : UserProfile)
    (searchResults : SearchResults) : completion value :=
  let healthCheck := checkOllamaHealth in
  if negb (healthy healthCheck)
  then Throw ("Ollama service unavailable: " +:+ error healthCheck)
  else
    let userPrompt := buildUserPrompt userProfile searchResults in
    let fullPrompt := systemPrompt +:+ nl +:+ nl +:+ userPrompt in
    match ollama_generate fullPrompt with
    | Throw message => Throw message
    | Normal response => Normal (parseLearningPathResponse response)
    end.

Definition generateLearningPath (userProfile : UserProfile)
    (searchResults : SearchResults) : completion value :=
  match generate_body userProfile searchResults with
  | Normal learningPath => Normal learningPath
  | Throw message => Throw ("Failed to generate learning path: " +:+ message)
  end.

End Service.

End LLM.

(** ** The aggregation of the three category searches ([searchAllSources]) *)

Module Aggregator.

(** The state of a promise that [Promise.allSettled] reports. *)
Inductive settled (A : Type) :=
  | fulfilled (value : A)
  | rejected (reason : string).
Arguments fulfilled {A} value.
Arguments rejected {A} reason.

(** [x.status === 'fulfilled' ? x.value : []] *)
Definition value_or_empty {A} (x : settled (list A)) : list A :=
  match x with
  | fulfilled value => value
  | rejected _ => []
  end.

(** The object [searchAllSources] returns. *)
Record AllSources := {
  documentation : list Content.ContentResult;
  training : list Content.ContentResult;
  videos : list Content.ContentResult;
  all : list Content.ContentResult
}.

Section Service.

Variable URL_hostname : string -> option string.
Variable uddg_param : string -> option string.
Variable maxResults : Z.

(** The three searches run side by side; each one meets the search engine
    through its own sequence of requests. *)
Variable network_docs network_training network_videos : nat -> string -> Content.Response.

(** A category search is an [async] function whose body is one
    [try]/[catch] that returns in both branches: its promise is fulfilled
    with the list it returns. *)
Definition settle (outcome : Content.Outcome) : settled (list Content.ContentResult) :=
  fulfilled (Content.results outcome).

Definition searchAllSources (topics : list string) : AllSources :=
  let docsResults :=
    settle (Content.searchRedHatDocs URL_hostname uddg_param maxResults network_docs topics) in
  let trainingResults :=
    settle (Content.searchRedHatTraining URL_hostname uddg_param maxResults network_training topics) in
  let videoResults :=
    settle (Content.searchRedHatVideos URL_hostname uddg_param maxResults network_videos topics) in
  let documentation := value_or_empty docsResults in
  let training := value_or_empty trainingResults in
  let videos := value_or_empty videoResults in
  let allResults := documentation ++ training ++ videos in
  let deduplicatedResults := Content.deduplicateResults URL_hostname allResults in
  {| documentation := documentation;
     training := training;
     videos := videos;
     all := deduplicatedResults |}.

End Service.

(** The keys the loop of [deduplicateResults] has seen after [results]. *)
Definition seen_keys (URL_hostname : string -> option string)
    (results : list Content.ContentResult) : gset string :=
  list_to_set (map (Content.dedup_key URL_hostname)
                   (List.filter Content.has_title_and_url results)).

End Aggregator.

(** ** The canned results ([generateFallbackResults],
    [generateFallbackVideoResults]) *)

Module Fallbacks.

Import JS Content.

(** [xs.slice(0, e)]: a negative [e] counts from the end. *)
Definition slice_to {A} (e : Z) (xs : list A) : list A :=
  if e <? 0
  then firstn (Z.to_nat (Z.max (Z.of_nat (length xs) + e) 0)) xs
  else firstn (Z.to_nat e) xs.

Definition canned (title url description : string) (type : ContentType)
    (source query domain : string) : ContentResult :=
  {| title := title; url := url; description := description; type := type;
     source := source; searchQuery := query; domain := domain |}.

Definition generateFallbackResults (maxResults : Z) (query source : string)
    : list ContentResult :=
  let queryLower := toLowerCase query in
  let results := [] in
  let results :=
    if includes queryLower "openshift"
    then results ++
         [ canned "Red Hat OpenShift Documentation"
             "https://docs.redhat.com/en/documentation/openshift_container_platform"
             "Complete documentation for Red Hat OpenShift Container Platform"
             documentation source query "docs.redhat.com";
           canned "Getting Started with OpenShift"
             "https://www.redhat.com/en/technologies/cloud-computing/openshift"
             "Learn about Red Hat OpenShift, the enterprise Kubernetes platform"
             article source query "redhat.com" ]
    else results in
  let results :=
    if includes queryLower "ansible"
    then results ++
         [ canned "Ansible Automation Platform Documentation"
             "https://docs.redhat.com/en/documentation/red_hat_ansible_automation_platform"
             "Documentation for Red Hat Ansible Automation Platform"
             documentation source query "docs.redhat.com";
           canned "Red Hat Ansible Training"
             "https://www.redhat.com/en/services/training/all-courses-exams?f[0]=taxonomy_training_course_type%3A799"
             "Ansible training courses and certifications from Red Hat"
             training source query "redhat.com" ]
    else results in
  let results :=
    if includes queryLower "rhel" || includes queryLower "linux"
    then results ++
         [ canned "Red Hat Enterprise Linux Documentation"
             "https://docs.redhat.com/en/documentation/red_hat_enterprise_linux"
             "Complete RHEL documentation and system administration guides"
             documentation source query "docs.redhat.com" ]
    else results in
  let results :=
    if includes queryLower "training" || includes queryLower "certification"
    then results ++
         [ canned "Red Hat Training and Certification"
             "https://www.redhat.com/en/services/training"
             "Red Hat training courses and certification programs"
             training source query "redhat.com" ]
    else results in
  let results :=
    if Z.of_nat (length results) =? 0
    then results ++
         [ canned "Red Hat Customer Portal"
             "https://access.redhat.com/"
             "Access Red Hat documentation, support, and resources"
             documentation source query "access.redhat.com";
           canned "Red Hat Developer"
             "https://developers.redhat.com/"
             "Resources and tools for Red Hat developers"
             article source query "developers.redhat.com" ]
    else results in
  slice_to (Z.min 3 maxResults) results.



End Fallbacks.

(** ** The connection test of the model client ([testConnection]) *)

Module Diagnostics.

Import JS LLM.

(** The object [testConnection] returns; [response], [model] and [host] are
    set on success only, [error] on failure only. *)
Record TestResult := {
  success : bool;
  response : option string;
  tested_model : option string;
  host : option string;
  test_error : option string
}.

Definition greeting : string :=
  "Respond with just " +:+ Content.quoted "Hello, Red Hat learning assistant ready!"
  +:+ " and nothing else.".

Section Service.

Variable model : string.
Variable ollamaHost : string.
Variable ollama_list : completion (list string).
Variable ollama_generate : string -> completion string.

Definition testConnection : TestResult :=
  let healthCheck := checkOllamaHealth model ollama_list in
  if negb (healthy healthCheck)
  then {| success := false; response := None; tested_model := None; host := None;
          test_error := Some (error healthCheck) |}
  else
    match ollama_generate greeting with
    | Normal text =>
        {| success := true; response := Some (trim text);
           tested_model := Some model; host := Some ollamaHost;
           test_error := None |}
    | Throw message =>
        {| success := false; response := None; tested_model := None; host := None;
           test_error := Some message |}
    end.

End Service.

End Diagnostics.

(** ** The request handlers ([routes/learningPath.js]) *)

Module Routes.

Import JS.

(** The outcome of a validation function of [utils/validation.js]. *)
Inductive Validation (Details Data : Type) :=
  | Invalid (errors : Details)
  | Valid (data : Data).
Arguments Invalid {Details Data} errors.
Arguments Valid {Details Data} data.

(** What a handler does with a request: it sends a JSON body with a status,
    or it hands an error to the framework with [next(error)]. *)
Inductive Reply (Body : Type) :=
  | Respond (status : Z) (body : Body)
  | Next (error : string).
Arguments Respond {Body} status body.
Arguments Next {Body} error.

(** The counts of [metadata.contentSources]. *)
Record ContentSources := {
  totalResources : nat;
  documentationCount : nat;
  trainingCount : nat;
  videosCount : nat
}.

(** The bodies of the [generate] handler. *)
Inductive GenerateBody (Details : Type) :=
  | ValidationFailed (details : Details)
  | ServiceMissing
  | ServiceUnavailable (details : string)
  | Generated (learningPath : LLM.value) (contentSources : ContentSources)
      (extractedTopics : list string).
Arguments ValidationFailed {Details} details.
Arguments ServiceMissing {Details}.
Arguments ServiceUnavailable {Details} details.
Arguments Generated {Details} learningPath contentSources extractedTopics.

(** The validated body of a search request. *)
Record SearchRequest := {
  topics : list string;
  sources : list string
}.

(** The object [results] of the [search] handler; a key may be absent. *)
Record Found := {
  tv : option (list Content.ContentResult);
  documentation : option (list Content.ContentResult);
  training : option (list Content.ContentResult);
  videos : option (list Content.ContentResult);
  all : list Content.ContentResult
}.

Inductive SearchBody (Details : Type) :=
  | SearchValidationFailed (details : Details)
  | SearchResults (results : Found) (totalResults : nat).
Arguments SearchValidationFailed {Details} details.
Arguments SearchResults {Details} results totalResults.

(** [xs || []] *)
Definition or_empty {A} (xs : option (list A)) : list A :=
  match xs with
  | Some l => l
  | None => []
  end.

(** A search result as [buildUserPrompt] reads it: it has no [duration] and
    no [level]. *)
Definition as_resource (r : Content.ContentResult) : LLM.Resource :=
  {| LLM.title := Content.title r;
     LLM.url := Content.url r;
     LLM.description := Content.description r;
     LLM.duration := None;
     LLM.level := None |}.

(** The object of [searchAllSources] as [buildUserPrompt] reads it: the keys
    [documentation] and [training] are there, the key [tv] is not (the
    videos are under [videos]). *)
Definition prompt_view (found : Aggregator.AllSources) : LLM.SearchResults :=
  {| LLM.tv := None;
     LLM.documentation := Some (map as_resource (Aggregator.documentation found));
     LLM.training := Some (map as_resource (Aggregator.training found)) |}.

(** A reply of the [generate] handler without the counts of
    [metadata.contentSources]. *)
Definition without_counts {Details} (reply : Reply (GenerateBody Details))
    : Reply (GenerateBody Details) :=
  match reply with
  | Respond status (Generated learningPath _ extractedTopics) =>
      Respond status
        (Generated learningPath
           {| totalResources := 0; documentationCount := 0;
              trainingCount := 0; videosCount := 0 |}
           extractedTopics)
  | other => other
  end.

Definition of_all (found : Aggregator.AllSources) : Found :=
  {| tv := None;
     documentation := Some (Aggregator.documentation found);
     training := Some (Aggregator.training found);
     videos := Some (Aggregator.videos found);
     all := Aggregator.all found |}.

(** A value of the object [getSearchCapabilities] returns. *)
Inductive Capability :=
  | Text (s : string)
  | Number (n : Z)
  | Texts (xs : list string).

(** [getSearchCapabilities]: the own properties of the object, for the
    configured [maxResults] and [searchTimeout]. *)
Definition getSearchCapabilities (maxResults searchTimeout : Z)
    : list (string * Capability) :=
  [ ("searchEngine", Text "DuckDuckGo");
    ("maxResults", Number maxResults);
    ("searchTimeout", Number searchTimeout);
    ("supportedSources", Texts ["Red Hat TV"; "Documentation"; "Training"; "Videos"]);
    ("supportedTypes", Texts ["video"; "documentation"; "training"; "article"; "pdf"]);
    ("redHatDomains",
     Texts [ "redhat.com"; "tv.redhat.com"; "docs.redhat.com"; "docs.ansible.com";
             "console.redhat.com"; "catalog.redhat.com"; "developers.redhat.com" ]) ].

(** [capabilities.key]: [None] for a key the object does not have. *)
Fixpoint property (key : string) (object : list (string * Capability))
    : option Capability :=
  match object with
  | [] => None
  | (k, v) :: rest => if String.eqb k key then Some v else property key rest
  end.

(** Truthiness of a property read. *)
Definition enabled (v : option Capability) : bool :=
  match v with
  | None => false
  | Some (Text s) => truthy s
  | Some (Number n) => negb (n =? 0)
  | Some (Texts _) => true
  end.

(** The object [recommendations] of [router.get('/search-capabilities', ...)]. *)
Record Recommendations := {
  googleSearch : string;
  youtubeApi : string;
  webScraping : string
}.

Definition recommendations (capabilities : list (string * Capability))
    : Recommendations :=
  {| googleSearch :=
       if enabled (property "googleSearchEnabled" capabilities)
       then "Google Custom Search API is configured and ready"
       else "Consider setting up Google Custom Search API for better search results";
     youtubeApi :=
       if enabled (property "youtubeApiEnabled" capabilities)
       then "YouTube API is configured and ready"
       else "Consider setting up YouTube API for enhanced video search";
     webScraping :=
       if enabled (property "webScrapingEnabled" capabilities)
       then "Web scraping fallback is enabled"
       else "Web scraping is disabled - API keys recommended for better results" |}.

Section Handlers.

Variable Details : Type.

Variable URL_hostname : string -> option string.
Variable uddg_param : string -> option string.
Variable maxResults : Z.
Variable network_docs network_training network_videos : nat -> string -> Content.Response.

Variable JSON_parse : string -> LLM.completion LLM.value.
Variable model : string.

(** The answers to the health check of the handler and to the one
    [generateLearningPath] makes afterwards. *)
Variable ollama_list_first ollama_list_second : LLM.completion (list string).
Variable ollama_generate : string -> LLM.completion string.
Variable systemPrompt : string.

(** Whether the module-level [llmService] was constructed. *)
Variable llmService : bool.

Definition searchAllSources (topics : list string) : Aggregator.AllSources :=
  Aggregator.searchAllSources URL_hostname uddg_param maxResults
    network_docs network_training network_videos topics.

(** [router.post('/generate', ...)], after the validation of the body. *)
Definition generate (validation : Validation Details LLM.UserProfile)
    : Reply (GenerateBody Details) :=
  match validation with
  | Invalid errors => Respond 400 (ValidationFailed errors)
  | Valid userProfile =>
      if negb llmService then Respond 500 ServiceMissing
      else
        let healthCheck := LLM.checkOllamaHealth model ollama_list_first in
        if negb (LLM.healthy healthCheck)
        then Respond 503 (ServiceUnavailable (LLM.error healthCheck))
        else
          let allTopics := LLM.interests userProfile ++ LLM.goals userProfile in
          let extractedTopics := Content.extractTopics (join " " allTopics) in
          let searchResults := searchAllSources extractedTopics in
          match LLM.generateLearningPath JSON_parse model ollama_list_second
                  ollama_generate systemPrompt userProfile
                  (prompt_view searchResults) with
          | LLM.Throw message => Next message
          | LLM.Normal learningPath =>
              Respond 200
                (Generated learningPath
                   {| totalResources := length (Aggregator.all searchResults);
                      documentationCount := length (Aggregator.documentation searchResults);
                      trainingCount := length (Aggregator.training searchResults);
                      videosCount := length (Aggregator.videos searchResults) |}
                   extractedTopics)
          end
  end.

(** [sources.includes(name)] *)
Definition has_source (name : string) (sources : list string) : bool :=
  existsb (String.eqb name) sources.

(** [router.post('/search', ...)], after the validation of the body.  The
    service has no method [searchRedHatTV]: calling it throws. *)
Definition search (validation : Validation Details SearchRequest)
    : Reply (SearchBody Details) :=
  match validation with
  | Invalid errors => Respond 400 (SearchValidationFailed errors)
  | Valid request =>
      if has_source "all" (sources request)
      then
        let searchResults := of_all (searchAllSources (topics request)) in
        Respond 200 (SearchResults searchResults (length (all searchResults)))
      else if has_source "tv" (sources request)
      then Next "redhatContentService.searchRedHatTV is not a function"
      else
        let documentation :=
          if has_source "documentation" (sources request)
          then Some (Content.results
                       (Content.searchRedHatDocs URL_hostname uddg_param maxResults
                          network_docs (topics request)))
          else None in
        let training :=
          if has_source "training" (sources request)
          then Some (Content.results
                       (Content.searchRedHatTraining URL_hostname uddg_param maxResults
                          network_training (topics request)))
          else None in
        let allResults := or_empty None ++ or_empty documentation ++ or_empty training in
        let searchResults :=
          {| tv := None; documentation := documentation; training := training;
             videos := None;
             all := Content.deduplicateResults URL_hostname allResults |} in
        Respond 200 (SearchResults searchResults (length (all searchResults)))
  end.

End Handlers.

End Routes.

(** ** Readings of the platform for closed examples

    The theorems below hold for every URL parser and every JSON parser.  The
    closed examples need one of each; these agree with the platform on the
    inputs the examples use. *)

Module Platform.

Import JS.

Definition scheme_char (c : ascii) : bool :=
  is_lower c || is_upper c || is_digit c || includes "+-." (String c EmptyString).

Fixpoint scheme_rest (s : string) : bool :=
  match s with
  | EmptyString => false
  | String c s' =>
      if Ascii.eqb c ":" then true
      else if scheme_char c then scheme_rest s' else false
  end.

(** Leading C0 control characters and spaces are dropped before parsing. *)
Fixpoint strip_leading_control (s : string) : string :=
  match s with
  | EmptyString => EmptyString
  | String c s' => if (code c <=? 32)%N then strip_leading_control s' else s
  end.

(** An absolute URL starts with a scheme: an ASCII letter, then letters,
    digits, [+], [-] or [.], then a colon.  The [URL] constructor, given no
    base, throws on a string that has none. *)
Definition has_scheme (url : string) : bool :=
  match strip_leading_control url with
  | EmptyString => false
  | String c s' => (is_lower c || is_upper c) && scheme_rest s'
  end.

(** The code units of [s] before the first of [/], [?], [#], [:] and the
    backslash. *)
Fixpoint host_part (s : string) : string :=
  match s with
  | EmptyString => EmptyString
  | String c s' =>
      if includes "/?#:" (String c EmptyString) || (code c =? 92)%N
      then EmptyString
      else String c (host_part s')
  end.

(** The host name of [http://host], [https://host], with an optional port
    and path, for a plain ASCII host name.  Other strings are read as not
    parsable; the examples use none that the platform would parse. *)
Definition plain_http_hostname (url : string) : option string :=
  let lower := toLowerCase (strip_leading_control url) in
  let authority :=
    if startsWith lower "https://" then Some (drop 8 lower)
    else if startsWith lower "http://" then Some (drop 7 lower)
    else None in
  match authority with
  | Some rest =>
      let host := host_part rest in
      if truthy host then Some host else None
  | None => None
  end.

End Platform.

(** ** Sample results for the closed examples *)

Module Samples.

Import Content.


Definition blog_video : ContentResult :=
  {| title := "OpenShift demo";
     url := "https://videos.example.com/openshift-demo";
     description := "A demo of OpenShift";
     type := video;
     source := "Red Hat Videos";
     searchQuery := "openshift";
     domain := "videos.example.com" |}.

Definition official_article : ContentResult :=
  {| title := "What is OpenShift";
     url := "https://www.redhat.com/en/topics/openshift";
     description := "Red Hat OpenShift explained";
     type := article;
     source := "Red Hat Docs";
     searchQuery := "openshift";
     domain := "www.redhat.com" |}.

Definition official_video : ContentResult :=
  {| title := "OpenShift roadmap";
     url := "https://tv.redhat.com/detail/1/openshift-roadmap";
     description := "The roadmap of Red Hat OpenShift";
     type := video;
     source := "Red Hat Videos";
     searchQuery := "openshift";
     domain := "tv.redhat.com" |}.

(** A page of [docs.ansible.com], a domain of the list of [isRedHatRelated]
    that does not contain [redhat.com]. *)
Definition ansible_docs : ContentResult :=
  {| title := "Ansible documentation";
     url := "https://docs.ansible.com/ansible/latest/index.html";
     description := "Ansible documentation";
     type := documentation;
     source := "Red Hat Docs";
     searchQuery := "ansible";
     domain := "docs.ansible.com" |}.

(** A result block whose title is made of punctuation that [cleanTitle]
    removes, linking to an official page. *)
Definition starred_row : Row :=
  {| titleLinkText := "***";
     titleLinkHref := Some "https://www.redhat.com/en/technologies";
     snippetText := "Red Hat technologies";
     anchorText := "***";
     anchorHref := Some "https://www.redhat.com/en/technologies";
     blockText := "*** Red Hat technologies" |}.

Definition ansible_row : Row :=
  {| titleLinkText := "Red Hat Certified Specialist in Ansible";
     titleLinkHref := Some "https://www.redhat.com/en/services/certification/ansible";
     snippetText := "Certification for Ansible automation";
     anchorText := "Red Hat Certified Specialist in Ansible";
     anchorHref := Some "https://www.redhat.com/en/services/certification/ansible";
     blockText := "Red Hat Certified Specialist in Ansible Certification for Ansible automation" |}.

(** A page whose [.result] blocks are [rows]; the other selectors match
    nothing. *)
Definition page_of (rows : list Row) : Document :=
  fun selector => if String.eqb selector ".result" then rows else [].

(** A search engine whose first request is rejected and whose later
    requests all return the page with [ansible_row]. *)
Definition first_request_fails (n : nat) (query : string) : Response :=
  match n with
  | O => Failed "timeout of 10000ms exceeded"
  | S _ => Page (page_of [ansible_row])
  end.

Definition fresh : Search := {| issued := []; searchResults := [] |}.

Definition learner : LLM.UserProfile :=
  {| LLM.interests := ["openshift"];
     LLM.experience := "beginner";
     LLM.goals := ["run containers in production"];
     LLM.timeCommitment := "5 hours a week";
     LLM.preferredLearningStyle := "hands-on" |}.

Definition no_content : LLM.SearchResults :=
  {| LLM.tv := None; LLM.documentation := Some []; LLM.training := Some [] |}.

(** A JSON parser for the examples.  It rejects its input; the examples
    apply it to prose and to the empty text only, which [JSON.parse] rejects
    too. *)
Definition rejects_prose (text : string) : LLM.completion LLM.value :=
  LLM.Throw "Unexpected token in JSON".

End Samples.

(** ** Shapes of strings, for the statements about the cleaning functions *)

Module Shape.

Import JS.

(** Every code unit of [s] satisfies [p]. *)
Fixpoint all_chars (p : ascii -> bool) (s : string) : bool :=
  match s with
  | EmptyString => true
  | String c s' => p c && all_chars p s'
  end.

(** The only white space in [s] is the plain space, and no two spaces are
    adjacent.  [after_space] tells that a space precedes [s]. *)
Fixpoint single_spaced (after_space : bool) (s : string) : bool :=
  match s with
  | EmptyString => true
  | String c s' =>
      if is_space c
      then (code c =? 32)%N && negb after_space && single_spaced true s'
      else single_spaced false s'
  end.

(** [s] neither starts nor ends with white space. *)
Definition trimmed (s : string) : Prop := trimStart s = s /\ trimEnd s = s.

(** The code units a cleaned title can hold: the word characters (letters,
    digits, the underscore), the plain space (32), and the punctuation
    - ( ) [ ] . , : ; ! ? with the apostrophe (39) and the double quote
    (34), listed by their codes. *)
Definition title_kept (c : ascii) : bool :=
  is_word c || (code c =? 32)%N ||
  existsb (N.eqb (code c)) [45; 40; 41; 91; 93; 46; 44; 58; 59; 33; 63; 39; 34]%N.

End Shape.

(** ** What a kept result block is stored as *)

Module Emitted.

Import JS Content Shape.

(** The record [process_row] builds for a block it keeps, read as a
    property of the record: [URL_hostname] is the URL parser, [source] and
    [query] the label and the query of the search. *)
Definition emitted (URL_hostname : string -> option string)
    (source query : string) (r : ContentResult) : Prop :=
  Content.source r = source /\ searchQuery r = query /\
  url r <> "" /\
  domain r = extractDomain URL_hostname (url r) /\
  toLowerCase (domain r) = domain r /\
  type r <> unknown /\
  trimmed (title r) /\ trimmed (description r) /\
  exists rawTitle rawDescription,
    rawTitle <> "" /\
    isRedHatRelated rawTitle (url r) rawDescription = true /\
    title r = cleanTitle rawTitle /\
    description r = cleanDescription rawDescription /\
    type r = determineContentType (url r) rawTitle.

End Emitted.

(** * Properties *)

(** ** Strings *)

Section StringFacts.

Import JS.

Lemma append_cons (x : ascii) (a b : string) :
  String x a +:+ b = String x (a +:+ b).
Proof. reflexivity. Qed.

Lemma append_nil (b : string) : "" +:+ b = b.
Proof. reflexivity. Qed.

Lemma append_assoc (a b c : string) : (a +:+ b) +:+ c = a +:+ (b +:+ c).
Proof.
  induction a as [|x a IH]; [reflexivity|].
  rewrite !append_cons. now rewrite IH.
Qed.

Lemma toLowerCase_app (a b : string) :
  toLowerCase (a +:+ b) = toLowerCase a +:+ toLowerCase b.
Proof.
  induction a as [|x a IH]; [reflexivity|].
  rewrite append_cons. simpl. rewrite append_cons. now rewrite IH.
Qed.

Lemma startsWith_spec (s p : string) :
  startsWith s p = true <-> exists t, s = p +:+ t.
Proof.
  revert s. induction p as [|a p IH]; intros s; simpl.
  - split; [intros _; now exists s | reflexivity].
  - destruct s as [|b s].
    + split; [discriminate | intros [t Ht]; discriminate].
    + destruct (Ascii.eqb_spec a b) as [->|Hne].
      * rewrite IH. split; intros [t Ht]; exists t.
        -- rewrite append_cons. now rewrite Ht.
        -- rewrite append_cons in Ht. congruence.
      * split; [discriminate | intros [t Ht]].
        rewrite append_cons in Ht. congruence.
Qed.

Lemma includes_spec (s k : string) :
  includes s k = true <-> exists a b, s = a +:+ k +:+ b.
Proof.
  induction s as [|c s IH]; simpl.
  - rewrite orb_false_r, startsWith_spec. split.
    + intros [t Ht]. now exists "", t.
    + intros [a [b Hab]]. destruct a; [now exists b | discriminate].
  - rewrite orb_true_iff, startsWith_spec, IH. split.
    + intros [[t Ht] | [a [b Hab]]].
      * now exists "", t.
      * exists (String c a), b. rewrite append_cons. now rewrite Hab.
    + intros [a [b Hab]]. destruct a as [|x a].
      * left. now exists b.
      * right. exists a, b. rewrite append_cons in Hab. congruence.
Qed.

Lemma includes_app_l (a b k : string) :
  includes a k = true -> includes (a +:+ b) k = true.
Proof.
  rewrite !includes_spec. intros [x [y ->]]. exists x, (y +:+ b).
  now rewrite !append_assoc.
Qed.

Lemma includes_app_r (a b k : string) :
  includes b k = true -> includes (a +:+ b) k = true.
Proof.
  rewrite !includes_spec. intros [x [y ->]]. exists (a +:+ x), y.
  now rewrite !append_assoc.
Qed.

Lemma includes_trans (s k k' : string) :
  includes s k = true -> includes k k' = true -> includes s k' = true.
Proof.
  rewrite !includes_spec. intros [a [b ->]] [x [y ->]].
  exists (a +:+ x), (y +:+ b). now rewrite !append_assoc.
Qed.

Lemma truthy_spec (s : string) : truthy s = true <-> s <> "".
Proof. destruct s; unfold truthy; simpl; split; congruence. Qed.

End StringFacts.

Example trim_example : JS.trim "  a b  " = "a b".
Proof. reflexivity. Qed.

Example split_example : JS.split_spaces " a  b " = [""; "a"; "b"; ""].
Proof. reflexivity. Qed.

Example collapse_example : JS.collapse_spaces "a   b  c" = "a b c".
Proof. reflexivity. Qed.

Example strip_example : JS.strip_trailing_ellipsis "abc  ..." = "abc".
Proof. reflexivity. Qed.

Example toLowerCase_example : JS.toLowerCase "Red HAT_9" = "red hat_9".
Proof. reflexivity. Qed.

(** ** The content classifier *)

Section ClassifierFacts.

Import JS Content.

(** A keyword found in the lower-cased title, URL or description is found
    in the lower-cased text [isRedHatRelated] searches. *)
Lemma keyword_in_content (title url description keyword : string) :
  In keyword redhatKeywords ->
  includes (toLowerCase title) keyword = true \/
  includes (toLowerCase url) keyword = true \/
  includes (toLowerCase description) keyword = true ->
  hasRedHatKeywords title url description = true.
Proof.
  intros Hin H. unfold hasRedHatKeywords.
  apply existsb_exists. exists keyword. split; [exact Hin|].
  rewrite !toLowerCase_app. destruct H as [H | [H | H]].
  - now apply includes_app_l.
  - now apply includes_app_r, includes_app_r, includes_app_l.
  - now do 4 apply includes_app_r.
Qed.

(** Every official domain contains a keyword, so the domain test never adds
    to the keyword test. *)
Lemma domain_implies_keywords (title url description : string) :
  hasRedHatDomain url = true -> hasRedHatKeywords title url description = true.
Proof.
  unfold hasRedHatDomain. intros H. apply existsb_exists in H as [d [Hd H]].
  assert (exists keyword, In keyword redhatKeywords /\ includes d keyword = true)
    as [keyword [Hk Hdk]].
  { simpl in Hd.
    repeat (destruct Hd as [<- | Hd];
            [ first [ exists "redhat"; split; [simpl; tauto | reflexivity]
                    | exists "ansible"; split; [simpl; tauto | reflexivity] ] | ]).
    destruct Hd. }
  apply keyword_in_content with (keyword := keyword); [exact Hk|].
  right. left. eapply includes_trans; eassumption.
Qed.

End ClassifierFacts.

Section ClassifierClaims.

Import JS Content.

(** C6, as amended.  [isRedHatRelated] answers true exactly when the
    lower-cased text of title, URL and description contains a keyword or the
    URL contains an official domain and, when the URL contains [youtube.com],
    the brand name is in the title or in the description, or one of the two
    product names [openshift] and [ansible] is in the title. *)
Theorem isRedHatRelated_rule (title url description : string) :
  isRedHatRelated title url description = true <->
  (hasRedHatKeywords title url description = true \/ hasRedHatDomain url = true) /\
  (includes url "youtube.com" = true ->
   includes (toLowerCase title) "red hat" = true \/
   includes (toLowerCase description) "red hat" = true \/
   includes (toLowerCase title) "openshift" = true \/
   includes (toLowerCase title) "ansible" = true).
Proof.
  unfold isRedHatRelated.
  destruct (includes url "youtube.com") eqn:Hy.
  - rewrite andb_true_iff, !orb_true_iff. split.
    + intros [Hk H]. split; [now left|]. intros _. tauto.
    + intros [_ H]. specialize (H eq_refl). split; [|tauto].
      destruct H as [H | [H | [H | H]]].
      * apply keyword_in_content with (keyword := "red hat"); [simpl|]; tauto.
      * apply keyword_in_content with (keyword := "red hat"); [simpl|]; tauto.
      * apply keyword_in_content with (keyword := "openshift"); [simpl|]; tauto.
      * apply keyword_in_content with (keyword := "ansible"); [simpl|]; tauto.
  - rewrite orb_true_iff. split.
    + intros H. split; [exact H | discriminate].
    + intros [H _]. exact H.
Qed.

(** C6, the claim as stated fails: on a [youtube.com] URL a product name
    that appears only in the description does not make the result relevant. *)
Lemma isRedHatRelated_description_only :
  isRedHatRelated "Intro" "https://www.youtube.com/watch?v=1" "Learn OpenShift today" = false /\
  isRelated_as_specified "Intro" "https://www.youtube.com/watch?v=1" "Learn OpenShift today" = true.
Proof. split; vm_compute; reflexivity. Qed.

(** Off the video-hosting domain the rule is the keyword test alone. *)
Lemma isRedHatRelated_keywords_only (title url description : string) :
  includes url "youtube.com" = false ->
  isRedHatRelated title url description = hasRedHatKeywords title url description.
Proof.
  intros Hy. unfold isRedHatRelated. rewrite Hy.
  destruct (hasRedHatKeywords title url description) eqn:Hk; [reflexivity|].
  destruct (hasRedHatDomain url) eqn:Hd; [|reflexivity].
  apply domain_implies_keywords with (title := title) (description := description) in Hd.
  congruence.
Qed.

(** C5, as amended.  [determineContentType] is total and returns one of the
    six labels; it returns [unknown] exactly when the URL is empty.  A URL
    that is not empty is labelled by the substring rules whether or not it is
    well formed. *)
Theorem determineContentType_total (url title : string) :
  In (label (determineContentType url title))
     ["video"; "documentation"; "training"; "article"; "pdf"; "unknown"] /\
  (determineContentType url title = unknown <-> url = "").
Proof.
  split.
  - destruct (determineContentType url title); simpl; tauto.
  - unfold determineContentType. destruct url as [|c url'].
    + simpl. split; reflexivity.
    + change (truthy (String c url')) with true. cbv match beta. simpl negb. cbv iota.
      split; [|discriminate].
      repeat match goal with
             | |- context [if ?b then _ else _] => destruct b
             end; discriminate.
Qed.

(** C5, the claim as stated fails: a string with no scheme is a malformed
    URL, and it is labelled [article], not [unknown]. *)
Lemma determineContentType_malformed :
  Platform.has_scheme "not a url" = false /\
  Platform.plain_http_hostname "not a url" = None /\
  determineContentType "not a url" "" = article.
Proof. repeat split. Qed.

End ClassifierClaims.

(** ** Sets of strings in insertion order *)

Section SetFacts.

Import JS.

Lemma set_values_from_elem (seen : gset string) (xs : list string) (x : string) :
  x ∈ set_values_from seen xs <-> x ∈ xs /\ x ∉ seen.
Proof.
  revert seen. induction xs as [|y xs IH]; intros seen; simpl.
  - rewrite !elem_of_nil. tauto.
  - destruct (decide (y ∈ seen)) as [Hin|Hout].
    + rewrite IH, elem_of_cons. split; [tauto|].
      intros [[-> | H] Hx]; [contradiction | tauto].
    + rewrite !elem_of_cons, IH. split.
      * intros [-> | [H Hx]]; [tauto|]. split; [tauto|]. set_solver.
      * intros [[-> | H] Hx]; [tauto|].
        destruct (decide (x = y)) as [->|Hne]; [tauto|]. right. split; [exact H|]. set_solver.
Qed.

Lemma set_values_from_NoDup (seen : gset string) (xs : list string) :
  NoDup (set_values_from seen xs).
Proof.
  revert seen. induction xs as [|y xs IH]; intros seen; simpl.
  - constructor.
  - destruct (decide (y ∈ seen)); [apply IH|].
    apply NoDup_cons. split; [|apply IH].
    rewrite set_values_from_elem. set_solver.
Qed.

Lemma set_values_from_sublist (seen : gset string) (xs : list string) :
  set_values_from seen xs `sublist_of` xs.
Proof.
  revert seen. induction xs as [|y xs IH]; intros seen; simpl.
  - constructor.
  - destruct (decide (y ∈ seen)); [apply sublist_cons | apply sublist_skip]; apply IH.
Qed.

Lemma set_values_from_id (seen : gset string) (xs : list string) :
  NoDup xs -> (forall x, x ∈ xs -> x ∉ seen) -> set_values_from seen xs = xs.
Proof.
  revert seen. induction xs as [|y xs IH]; intros seen Hnd Hseen; simpl; [reflexivity|].
  apply NoDup_cons in Hnd as [Hy Hnd].
  destruct (decide (y ∈ seen)) as [Hin|Hout].
  - exfalso. apply (Hseen y); [left | exact Hin].
  - f_equal. apply IH; [exact Hnd|].
    intros x Hx. specialize (Hseen x (list_elem_of_further _ _ _ Hx)).
    assert (x <> y) by (intros ->; contradiction). set_solver.
Qed.

Lemma set_values_id (xs : list string) : NoDup xs -> set_values xs = xs.
Proof. intros H. apply set_values_from_id; [exact H | set_solver]. Qed.

Lemma NoDup_map_filter {A B} (f : A -> B) (p : A -> bool) (l : list A) :
  NoDup (map f l) -> NoDup (map f (List.filter p l)).
Proof.
  induction l as [|x l IH]; simpl; [trivial|].
  intros H. apply NoDup_cons in H as [Hx Hl].
  destruct (p x); simpl; [|now apply IH].
  apply NoDup_cons. split; [|now apply IH].
  intros Hin. apply Hx.
  apply list_elem_of_In, in_map_iff in Hin as [y [Hy Hin]].
  apply filter_In in Hin as [Hin _].
  apply list_elem_of_In, in_map_iff. now exists y.
Qed.


End SetFacts.

(** ** The topic extractor *)

Section TopicFacts.

Import JS Content.

Lemma bucket_matches_spec (input : string) (keywords : list string) :
  bucket_matches input keywords = true <->
  exists keyword a b, keyword ∈ keywords /\ input = a +:+ keyword +:+ b.
Proof.
  unfold bucket_matches. rewrite existsb_exists. split.
  - intros [k [Hk H]]. apply includes_spec in H as [a [b H]].
    exists k, a, b. split; [now apply list_elem_of_In | exact H].
  - intros [k [a [b [Hk H]]]]. exists k. split; [now apply list_elem_of_In|].
    apply includes_spec. now exists a, b.
Qed.

Lemma topic_names_NoDup : NoDup (map fst topicKeywords).
Proof. apply (bool_decide_unpack (NoDup (map fst topicKeywords))). vm_compute. exact I. Qed.

Lemma matched_topics_NoDup (input : string) : NoDup (matched_topics input).
Proof. apply NoDup_map_filter, topic_names_NoDup. Qed.

Lemma matched_topics_elem (input topic : string) :
  topic ∈ matched_topics input <->
  exists keywords, (topic, keywords) ∈ topicKeywords /\ bucket_matches input keywords = true.
Proof.
  unfold matched_topics. rewrite list_elem_of_In, in_map_iff. split.
  - intros [[t kws] [Ht Hin]]. simpl in Ht. subst t.
    apply filter_In in Hin as [Hin Hm]. exists kws. split; [now apply list_elem_of_In | exact Hm].
  - intros [kws [Hin Hm]]. exists (topic, kws). split; [reflexivity|].
    apply filter_In. split; [now apply list_elem_of_In | exact Hm].
Qed.

Lemma meaningful_words_elem (input word : string) :
  word ∈ meaningful_words input <->
  word ∈ split_spaces input /\ (3 < String.length word)%nat /\ word ∉ stopwords.
Proof.
  unfold meaningful_words. rewrite list_elem_of_In, !filter_In, <- list_elem_of_In.
  rewrite negb_true_iff, Z.ltb_lt. split.
  - intros [[Hs Hl] Hw]. split; [exact Hs|]. split; [lia|].
    intros Hin. apply list_elem_of_In in Hin.
    assert (existsb (String.eqb word) stopwords = true); [|congruence].
    apply existsb_exists. exists word. split; [exact Hin | apply String.eqb_refl].
  - intros [Hs [Hl Hw]]. split; [split; [exact Hs | lia]|].
    destruct (existsb (String.eqb word) stopwords) eqn:He; [|reflexivity].
    exfalso. apply Hw. apply existsb_exists in He as [w [Hin He]].
    apply String.eqb_eq in He. subst w. now apply list_elem_of_In.
Qed.

(** C7.  [extractTopics] returns a duplicate-free list.  It holds every
    bucket name one of whose keywords is a substring of the lower-cased input
    and, when some bucket matches, nothing else.  When no bucket matches it
    holds the first three white-space separated tokens that are longer than
    three characters and are not stopwords, in their order.  The two inputs
    of the specification give [openshift] alone, and [purple], [elephants],
    [dancing]. *)
Theorem extractTopics_buckets (userInput : string) :
  let input := toLowerCase userInput in
  let out := extractTopics userInput in
  NoDup out /\
  (forall topic keywords,
     (topic, keywords) ∈ topicKeywords ->
     bucket_matches input keywords = true -> topic ∈ out) /\
  ((exists entry, entry ∈ topicKeywords /\ bucket_matches input (snd entry) = true) ->
   forall topic,
     topic ∈ out <->
     exists keywords, (topic, keywords) ∈ topicKeywords /\
                      bucket_matches input keywords = true) /\
  ((forall entry, entry ∈ topicKeywords -> bucket_matches input (snd entry) = false) ->
   (forall word, word ∈ out <-> word ∈ firstn 3 (meaningful_words input)) /\
   out `sublist_of` firstn 3 (meaningful_words input) /\
   (NoDup (firstn 3 (meaningful_words input)) ->
    out = firstn 3 (meaningful_words input))) /\
  (forall word,
     word ∈ meaningful_words input <->
     word ∈ split_spaces input /\ (3 < String.length word)%nat /\ word ∉ stopwords) /\
  extractTopics "I want to learn OpenShift and Kubernetes" = ["openshift"] /\
  extractTopics "purple elephants dancing" = ["purple"; "elephants"; "dancing"].
Proof.
  intros input out.
  assert (Hsome : matched_topics input <> [] -> out = matched_topics input).
  { intros Hne. unfold out, extractTopics. fold input.
    destruct (matched_topics input) as [|t ts] eqn:Hm; [congruence|].
    change (Z.of_nat (length (t :: ts)) =? 0) with false. cbv iota.
    rewrite <- Hm. apply set_values_id, matched_topics_NoDup. }
  assert (Hnone : matched_topics input = [] ->
                  out = set_values (firstn 3 (meaningful_words input))).
  { intros Hm. unfold out, extractTopics. fold input. rewrite Hm. reflexivity. }
  split; [|split; [|split; [|split; [|split; [|split]]]]].
  - unfold out, extractTopics, set_values. apply set_values_from_NoDup.
  - intros topic keywords Hin Hmatch.
    assert (Hel : topic ∈ matched_topics input)
      by (apply matched_topics_elem; now exists keywords).
    rewrite Hsome; [exact Hel|]. intros Hm. rewrite Hm in Hel. now apply elem_of_nil in Hel.
  - intros [[t kws] [Hin Hmatch]] topic. simpl in Hmatch.
    rewrite Hsome; [apply matched_topics_elem|].
    intros Hm. assert (Hel : t ∈ matched_topics input)
      by (apply matched_topics_elem; now exists kws).
    rewrite Hm in Hel. now apply elem_of_nil in Hel.
  - intros Hno.
    assert (Hm : matched_topics input = []).
    { destruct (matched_topics input) as [|t ts] eqn:Hm; [reflexivity|].
      assert (Hel : t ∈ matched_topics input) by (rewrite Hm; left).
      apply matched_topics_elem in Hel as [kws [Hin Hmatch]].
      specialize (Hno _ Hin). simpl in Hno. congruence. }
    rewrite (Hnone Hm). split; [|split].
    + intros word. unfold set_values. rewrite set_values_from_elem. set_solver.
    + apply set_values_from_sublist.
    + apply set_values_id.
  - apply meaningful_words_elem.
  - vm_compute. reflexivity.
  - vm_compute. reflexivity.
Qed.

End TopicFacts.

(** ** Stable sorting by a comparator that follows a rank *)

Section SortFacts.

Import JS.

Context {A : Type} (cmp : A -> A -> Z) (rank : A -> Z).
Hypothesis cmp_rank : forall a b, cmp a b <= 0 <-> rank a <= rank b.

Lemma insert_perm (x : A) (l : list A) : insert cmp x l ≡ₚ x :: l.
Proof.
  induction l as [|y l IH]; simpl; [reflexivity|].
  destruct (cmp x y <=? 0); [reflexivity|].
  rewrite IH. apply Permutation_swap.
Qed.

Lemma sort_perm (l : list A) : sort cmp l ≡ₚ l.
Proof.
  induction l as [|x l IH]; simpl; [reflexivity|].
  rewrite insert_perm. now rewrite IH.
Qed.

Lemma insert_sorted (x : A) (l : list A) :
  StronglySorted (fun a b => rank a <= rank b) l ->
  StronglySorted (fun a b => rank a <= rank b) (insert cmp x l).
Proof.
  induction l as [|y l IH]; simpl; intros Hs.
  - constructor; [constructor | constructor].
  - apply StronglySorted_inv in Hs as [Hl Hy].
    destruct (Z.leb_spec (cmp x y) 0) as [Hle|Hgt].
    + apply cmp_rank in Hle. constructor.
      * constructor; assumption.
      * constructor; [exact Hle|].
        eapply Forall_impl; [exact Hy|]. intros z Hz. simpl in Hz. lia.
    + assert (rank y <= rank x).
      { destruct (Z.le_gt_cases (rank x) (rank y)) as [H|H]; [|lia].
        apply cmp_rank in H. lia. }
      constructor; [now apply IH|].
      rewrite (insert_perm x l). constructor; assumption.
Qed.

Lemma sort_sorted (l : list A) :
  StronglySorted (fun a b => rank a <= rank b) (sort cmp l).
Proof.
  induction l as [|x l IH]; simpl; [constructor | now apply insert_sorted].
Qed.

(** A list that is in order already is left as it is. *)
Lemma sort_of_sorted (l : list A) :
  StronglySorted (fun a b => rank a <= rank b) l -> sort cmp l = l.
Proof.
  induction l as [|x l IH]; simpl; intros Hs; [reflexivity|].
  apply StronglySorted_inv in Hs as [Hl Hx].
  rewrite (IH Hl). destruct l as [|y l]; [reflexivity|]. simpl.
  apply Forall_inv in Hx. apply cmp_rank in Hx.
  destruct (Z.leb_spec (cmp x y) 0); [reflexivity | lia].
Qed.

Lemma sort_idempotent (l : list A) : sort cmp (sort cmp l) = sort cmp l.
Proof. apply sort_of_sorted, sort_sorted. Qed.

(** Stability: among the elements of one rank the order of the input is
    kept. *)
Lemma insert_filter_rank (k : Z) (x : A) (l : list A) :
  List.filter (fun y => rank y =? k) (insert cmp x l) =
  List.filter (fun y => rank y =? k) (x :: l).
Proof.
  induction l as [|y l IH]; [reflexivity|].
  simpl insert. destruct (Z.leb_spec (cmp x y) 0) as [Hle|Hgt]; [reflexivity|].
  assert (Hlt : rank y < rank x).
  { destruct (Z.le_gt_cases (rank x) (rank y)) as [H|H]; [|lia].
    apply cmp_rank in H. lia. }
  simpl in *. rewrite IH.
  destruct (Z.eqb_spec (rank x) k), (Z.eqb_spec (rank y) k); try reflexivity; lia.
Qed.

Lemma sort_stable (k : Z) (l : list A) :
  List.filter (fun y => rank y =? k) (sort cmp l) =
  List.filter (fun y => rank y =? k) l.
Proof.
  induction l as [|x l IH]; [reflexivity|].
  simpl sort. rewrite insert_filter_rank. simpl. now rewrite IH.
Qed.

End SortFacts.

(** ** Deduplication and ranking *)

Section DedupFacts.

Import JS Content.

Variable URL_hostname : string -> option string.

Local Abbreviation dedup_key := (dedup_key URL_hostname).
Local Abbreviation first_seen := (first_seen URL_hostname).
Local Abbreviation uniqueResults := (uniqueResults URL_hostname).
Local Abbreviation deduplicateResults := (deduplicateResults URL_hostname).

Lemma order_bounds (t : ContentType) : 1 <= order t <= 6.
Proof. destruct t; vm_compute; split; discriminate. Qed.

Lemma compareResults_rank (a b : ContentResult) :
  compareResults a b <= 0 <-> rank a <= rank b.
Proof.
  unfold compareResults, rank.
  pose proof (order_bounds (type a)). pose proof (order_bounds (type b)).
  destruct (isRedHatDomain a), (isRedHatDomain b); simpl; lia.
Qed.

Lemma guard_has_title_and_url (r : ContentResult) :
  negb (truthy (title r)) || negb (truthy (url r)) = negb (has_title_and_url r).
Proof. unfold has_title_and_url. now rewrite negb_andb. Qed.

(** The loop of [deduplicateResults] appends [first_seen] to its array. *)
Lemma fold_dedup_step (results : list ContentResult) (seen : gset string)
    (acc : list ContentResult) :
  snd (fold_left (dedup_step URL_hostname) results (seen, acc)) =
  acc ++ first_seen seen results.
Proof.
  revert seen acc. induction results as [|r rest IH]; intros seen acc; simpl.
  - now rewrite app_nil_r.
  - destruct (negb (truthy (title r)) || negb (truthy (url r))); [apply IH|].
    destruct (decide (dedup_key r ∈ seen)); [apply IH|].
    rewrite IH. now rewrite <- app_assoc.
Qed.

Lemma uniqueResults_first_seen (results : list ContentResult) :
  uniqueResults results = first_seen ∅ results.
Proof. unfold Content.uniqueResults. now rewrite fold_dedup_step. Qed.

Lemma first_seen_elem (seen : gset string) (results : list ContentResult)
    (r : ContentResult) :
  r ∈ first_seen seen results <->
  exists i, results !! i = Some r /\ has_title_and_url r = true /\
            (dedup_key r ∉ seen) /\
            forall j r', (j < i)%nat -> results !! j = Some r' ->
                         has_title_and_url r' = true -> dedup_key r' <> dedup_key r.
Proof.
  revert seen. induction results as [|a l IH]; intros seen; simpl.
  - rewrite elem_of_nil. split; [tauto|]. intros [i [Hi _]]. discriminate.
  - rewrite guard_has_title_and_url.
    destruct (has_title_and_url a) eqn:Ha; simpl.
    + destruct (decide (dedup_key a ∈ seen)) as [Hin|Hout].
      * rewrite IH. split.
        -- intros [i [Hi [Hv [Hs Hj]]]]. exists (S i). repeat split; try assumption.
           intros [|j] r' Hlt Hr' Hv'; simpl in Hr'.
           ++ injection Hr' as <-. intros Heq. rewrite Heq in Hin. contradiction.
           ++ apply (Hj j); [lia | assumption | assumption].
        -- intros [[|i] [Hi [Hv [Hs Hj]]]]; simpl in Hi.
           ++ injection Hi as <-. contradiction.
           ++ exists i. repeat split; try assumption.
              intros j r' Hlt Hr' Hv'. apply (Hj (S j)); [lia | exact Hr' | exact Hv'].
      * rewrite elem_of_cons, IH. split.
        -- intros [-> | [i [Hi [Hv [Hs Hj]]]]].
           ++ exists 0%nat. repeat split; try assumption. intros j r' Hlt. lia.
           ++ exists (S i). repeat split; try assumption.
              ** set_solver.
              ** intros [|j] r' Hlt Hr' Hv'; simpl in Hr'.
                 --- injection Hr' as <-. intros Heq. apply Hs. rewrite Heq. set_solver.
                 --- apply (Hj j); [lia | assumption | assumption].
        -- intros [[|i] [Hi [Hv [Hs Hj]]]]; simpl in Hi.
           ++ injection Hi as <-. now left.
           ++ right. exists i. repeat split; try assumption.
              ** assert (dedup_key a <> dedup_key r)
                   by (apply (Hj 0%nat); [lia | reflexivity | exact Ha]).
                 set_solver.
              ** intros j r' Hlt Hr' Hv'. apply (Hj (S j)); [lia | exact Hr' | exact Hv'].
    + rewrite IH. split.
      * intros [i [Hi [Hv [Hs Hj]]]]. exists (S i). repeat split; try assumption.
        intros [|j] r' Hlt Hr' Hv'; simpl in Hr'.
        -- injection Hr' as <-. congruence.
        -- apply (Hj j); [lia | assumption | assumption].
      * intros [[|i] [Hi [Hv [Hs Hj]]]]; simpl in Hi.
        -- injection Hi as <-. congruence.
        -- exists i. repeat split; try assumption.
           intros j r' Hlt Hr' Hv'. apply (Hj (S j)); [lia | exact Hr' | exact Hv'].
Qed.

Lemma first_seen_keys (seen : gset string) (results : list ContentResult) (r : ContentResult) :
  r ∈ first_seen seen results -> has_title_and_url r = true /\ dedup_key r ∉ seen.
Proof. rewrite first_seen_elem. intros [i [_ [Hv [Hs _]]]]. tauto. Qed.

Lemma first_seen_NoDup (seen : gset string) (results : list ContentResult) :
  NoDup (map dedup_key (first_seen seen results)).
Proof.
  revert seen. induction results as [|a l IH]; intros seen; simpl; [constructor|].
  destruct (negb (truthy (title a)) || negb (truthy (url a))); [apply IH|].
  destruct (decide (dedup_key a ∈ seen)); [apply IH|].
  simpl. apply NoDup_cons. split; [|apply IH].
  intros Hin. apply list_elem_of_In, in_map_iff in Hin as [r [Hk Hr]].
  apply list_elem_of_In, first_seen_keys in Hr as [_ Hr]. rewrite Hk in Hr. set_solver.
Qed.

Lemma first_seen_sublist (seen : gset string) (results : list ContentResult) :
  first_seen seen results `sublist_of` results.
Proof.
  revert seen. induction results as [|a l IH]; intros seen; simpl; [constructor|].
  destruct (negb (truthy (title a)) || negb (truthy (url a))); [apply sublist_cons, IH|].
  destruct (decide (dedup_key a ∈ seen)); [apply sublist_cons | apply sublist_skip]; apply IH.
Qed.

(** A list of results that pass the guard and have distinct unseen keys goes
    through the loop unchanged. *)
Lemma first_seen_id (seen : gset string) (results : list ContentResult) :
  Forall (fun r => has_title_and_url r = true) results ->
  NoDup (map dedup_key results) ->
  (forall r, r ∈ results -> dedup_key r ∉ seen) ->
  first_seen seen results = results.
Proof.
  revert seen. induction results as [|a l IH]; intros seen Hv Hnd Hs; simpl; [reflexivity|].
  apply Forall_cons in Hv as [Ha Hv]. simpl in Hnd. apply NoDup_cons in Hnd as [Hk Hnd].
  rewrite guard_has_title_and_url, Ha. simpl.
  destruct (decide (dedup_key a ∈ seen)) as [Hin|Hout].
  - exfalso. apply (Hs a); [left | exact Hin].
  - f_equal. apply IH; [exact Hv | exact Hnd |].
    intros r Hr. specialize (Hs r (list_elem_of_further _ _ _ Hr)).
    assert (dedup_key r <> dedup_key a).
    { intros Heq. apply Hk. rewrite <- Heq. apply list_elem_of_In, in_map, list_elem_of_In, Hr. }
    set_solver.
Qed.

Lemma deduplicateResults_perm (results : list ContentResult) :
  deduplicateResults results ≡ₚ first_seen ∅ results.
Proof.
  unfold Content.deduplicateResults. rewrite uniqueResults_first_seen. apply sort_perm.
Qed.

Lemma deduplicateResults_valid (results : list ContentResult) (r : ContentResult) :
  r ∈ deduplicateResults results -> title r <> "" /\ url r <> "".
Proof.
  rewrite deduplicateResults_perm. intros Hr. apply first_seen_keys in Hr as [Hv _].
  unfold has_title_and_url in Hv. apply andb_true_iff in Hv as [Ht Hu].
  split; now apply truthy_spec.
Qed.

(** C2.  Deduplication is idempotent: deduplicating the output of
    [deduplicateResults] gives that output again. *)
Theorem deduplicateResults_idempotent (results : list ContentResult) :
  deduplicateResults (deduplicateResults results) = deduplicateResults results.
Proof.
  unfold Content.deduplicateResults at 1. rewrite uniqueResults_first_seen.
  rewrite first_seen_id.
  - unfold Content.deduplicateResults. apply (sort_idempotent _ rank compareResults_rank).
  - apply Forall_forall. intros r Hr. rewrite deduplicateResults_perm in Hr.
    now apply first_seen_keys in Hr.
  - assert (Hp : map dedup_key (deduplicateResults results) ≡ₚ
                 map dedup_key (first_seen ∅ results))
      by apply Permutation_map, deduplicateResults_perm.
    rewrite Hp. apply first_seen_NoDup.
  - intros r _. set_solver.
Qed.


(** C8.  The final sort of [deduplicateResults] keeps every result of the
    loop and puts the results whose [domain] contains [redhat.com] before all
    the others; within a tier the priorities of the types never decrease,
    with video 1, training 2, documentation 3, article 4, pdf 5 and any other
    type 6.  Given a result whose domain contains [redhat.com] and one whose
    domain does not, the first is returned first whatever their types and
    their order in the input. *)
Theorem deduplicateResults_sorted (results : list ContentResult) :
  let out := deduplicateResults results in
  let redhat r := includes (domain r) "redhat.com" in
  out ≡ₚ uniqueResults results /\
  (forall i j a b,
     out !! i = Some a -> out !! j = Some b -> (i < j)%nat ->
     (redhat b = true -> redhat a = true) /\
     (redhat a = redhat b -> order (type a) <= order (type b))) /\
  map order [video; training; documentation; article; pdf; unknown] = [1; 2; 3; 4; 5; 6] /\
  (forall a b,
     redhat a = true -> redhat b = false ->
     sort compareResults [b; a] = [a; b] /\ sort compareResults [a; b] = [a; b]) /\
  (forall a b,
     title a <> "" -> url a <> "" -> title b <> "" -> url b <> "" ->
     dedup_key a <> dedup_key b ->
     redhat a = true -> redhat b = false ->
     deduplicateResults [b; a] = [a; b] /\ deduplicateResults [a; b] = [a; b]).
Proof.
  intros out redhat.
  assert (Hpair : forall a b, redhat a = true -> redhat b = false ->
            sort compareResults [b; a] = [a; b] /\ sort compareResults [a; b] = [a; b]).
  { intros a b Ha Hb. unfold sort. simpl. unfold compareResults, isRedHatDomain.
    subst redhat. simpl in Ha, Hb. rewrite Ha, Hb. simpl. split; reflexivity. }
  split; [|split; [|split; [|split]]].
  - subst out. rewrite uniqueResults_first_seen. apply deduplicateResults_perm.
  - assert (Hs : StronglySorted (fun a b => rank a <= rank b) out)
      by apply (sort_sorted _ rank compareResults_rank).
    intros i j a b Hi Hj Hlt.
    assert (Hr : rank a <= rank b).
    { clear -Hs Hi Hj Hlt. revert i j Hi Hj Hlt.
      induction Hs as [|x l Hl IH Hx]; intros i j Hi Hj Hlt; [discriminate|].
      destruct j as [|j]; [lia|]. simpl in Hj.
      destruct i as [|i]; simpl in Hi.
      - injection Hi as <-. rewrite Forall_forall in Hx. apply Hx.
        eapply list_elem_of_lookup_2; exact Hj.
      - apply (IH i j); [assumption | assumption | lia]. }
    unfold rank, isRedHatDomain in Hr. subst redhat. simpl.
    pose proof (order_bounds (type a)). pose proof (order_bounds (type b)).
    destruct (includes (domain a) "redhat.com"), (includes (domain b) "redhat.com");
      split; intros; try congruence; lia.
  - reflexivity.
  - exact Hpair.
  - intros a b Hta Hua Htb Hub Hk Ha Hb.
    apply truthy_spec in Hta, Hua, Htb, Hub.
    destruct (Hpair a b Ha Hb) as [H1 H2].
    unfold Content.deduplicateResults. rewrite !uniqueResults_first_seen.
    assert (Hba : first_seen ∅ [b; a] = [b; a]).
    { simpl. rewrite Hta, Hua, Htb, Hub. simpl.
      destruct (decide (dedup_key b ∈ (∅ : gset string))) as [Hin|_]; [set_solver|].
      destruct (decide (dedup_key a ∈ {[dedup_key b]} ∪ (∅ : gset string))) as [Hin|_];
        [set_solver | reflexivity]. }
    assert (Hab : first_seen ∅ [a; b] = [a; b]).
    { simpl. rewrite Hta, Hua, Htb, Hub. simpl.
      destruct (decide (dedup_key a ∈ (∅ : gset string))) as [Hin|_]; [set_solver|].
      destruct (decide (dedup_key b ∈ {[dedup_key a]} ∪ (∅ : gset string))) as [Hin|_];
        [set_solver | reflexivity]. }
    rewrite Hba, Hab. split; assumption.
Qed.

End DedupFacts.


(** C8, the claim as stated fails for the official domains of the
    relevance list: [docs.ansible.com] is one of them, and its page is
    returned after a video of a domain that is not, wherever the two stand in
    the input. *)
Lemma deduplicateResults_ansible_after_video :
  Content.hasRedHatDomain (Content.url Samples.ansible_docs) = true /\
  Content.hasRedHatDomain (Content.url Samples.blog_video) = false /\
  Content.deduplicateResults Platform.plain_http_hostname
    [Samples.ansible_docs; Samples.blog_video] =
  [Samples.blog_video; Samples.ansible_docs] /\
  Content.deduplicateResults Platform.plain_http_hostname
    [Samples.blog_video; Samples.ansible_docs] =
  [Samples.blog_video; Samples.ansible_docs].
Proof. repeat split; vm_compute; reflexivity. Qed.

Example deduplicateResults_official_first :
  Content.deduplicateResults Platform.plain_http_hostname
    [Samples.blog_video; Samples.official_article] =
  [Samples.official_article; Samples.blog_video].
Proof. vm_compute. reflexivity. Qed.

Example deduplicateResults_same_key :
  Content.deduplicateResults Platform.plain_http_hostname
    [Samples.official_article; Samples.official_article; Samples.blog_video] =
  [Samples.official_article; Samples.blog_video].
Proof. vm_compute. reflexivity. Qed.

(** The tier of the sort is decided by the [domain] field alone: a domain
    that contains [redhat.com] is in the first tier, any other in the second,
    also when it is on the list of [isRedHatRelated]. *)
Example isRedHatDomain_ansible_docs :
  Content.isRedHatDomain
    {| Content.title := "Ansible documentation";
       Content.url := "https://docs.ansible.com/";
       Content.description := "Ansible documentation";
       Content.type := Content.documentation;
       Content.source := "Red Hat Docs";
       Content.searchQuery := "ansible";
       Content.domain := "docs.ansible.com" |} = false /\
  Content.isRedHatDomain Samples.official_video = true.
Proof. split; reflexivity. Qed.

(** ** The search client *)

Section SearchFacts.

Import JS Content.

Variable URL_hostname : string -> option string.
Variable uddg_param : string -> option string.
Variable maxResults : Z.
Variable network : nat -> string -> Response.

Local Abbreviation process_row := (process_row URL_hostname uddg_param).
Local Abbreviation scrape := (scrape URL_hostname uddg_param maxResults).
Local Abbreviation performDuckDuckGoSearch := (performDuckDuckGoSearch URL_hostname uddg_param maxResults network).
Local Abbreviation search_topics := (search_topics URL_hostname uddg_param maxResults network).

(** A row is pushed only with a URL that is not empty and a raw title that
    is not empty; the stored title is the cleaned one. *)
Lemma process_row_pushed (source query : string) (row : Row) (r : ContentResult) :
  process_row source query row = Some r ->
  url r <> "" /\ row_title row <> "" /\ title r = cleanTitle (row_title row).
Proof.
  unfold Content.process_row.
  destruct (clean_url uddg_param (row_href row)) as [u|]; [|discriminate].
  destruct (truthy (row_title row)) eqn:Ht; [|discriminate].
  destruct (truthy u) eqn:Hu; [|discriminate]. simpl.
  destruct (isRedHatRelated _ _ _); [|discriminate].
  intros [= <-]. simpl. repeat split; now apply truthy_spec.
Qed.

Lemma scan_selectors_url (source query : string) (doc : Document)
    (selectors : list string) (acc : list ContentResult) (found : bool) :
  Forall (fun r => url r <> "") acc ->
  Forall (fun r => url r <> "")
    (scan_selectors URL_hostname uddg_param maxResults source query doc selectors acc found).
Proof.
  revert acc found. induction selectors as [|sel rest IH]; intros acc found Hacc; simpl.
  - exact Hacc.
  - destruct found; [exact Hacc|]. apply IH. apply Forall_app. split; [exact Hacc|].
    apply Forall_forall. intros r Hr. apply list_elem_of_omap in Hr as [row [_ Hrow]].
    now apply process_row_pushed in Hrow.
Qed.

(** Every result [performDuckDuckGoSearch] emits has a URL that is not
    empty. *)
Lemma scrape_url (source query : string) (doc : Document) :
  Forall (fun r => url r <> "") (scrape source query doc).
Proof. apply scan_selectors_url. constructor. Qed.

(** [performDuckDuckGoSearch] never throws: it sends its query, and yields
    [undefined] when the request fails and the scraped results otherwise. *)
Lemma performDuckDuckGoSearch_returns (query source : string) (st : Search) :
  performDuckDuckGoSearch query source st =
  (Normal match network (length (issued st)) query with
          | Failed _ => None
          | Page doc => Some (scrape source query doc)
          end,
   {| issued := issued st ++ [query]; searchResults := searchResults st |}).
Proof.
  unfold Content.performDuckDuckGoSearch, try_catch, bind, fetch_page, ret.
  destruct (network (length (issued st)) query); reflexivity.
Qed.

(** The loop over the queries of one topic, inside its [try]: it either
    completes or throws, and the [catch] of the topic turns both into a
    normal completion. *)
Lemma search_topics_returns (queries : string -> list string) (source : string)
    (topics : list string) (st : Search) :
  exists st', search_topics queries source topics st = (Normal tt, st').
Proof.
  unfold Content.search_topics. revert st.
  induction topics as [|topic rest IH]; intros st; simpl.
  - now exists st.
  - unfold bind at 1, try_catch at 1.
    destruct (for_of (queries topic) _ st) as [[[]|e] st1]; apply IH.
Qed.

(** A category search never aborts. *)
Lemma category_search_returns (queries : string -> list string) (source : string)
    (topics : list string) :
  exists st,
    search_topics queries source topics {| issued := []; searchResults := [] |} =
      (Normal tt, st) /\
    category_search URL_hostname uddg_param maxResults network queries source topics =
      {| results := deduplicateResults URL_hostname (searchResults st);
         requests := issued st |}.
Proof.
  destruct (search_topics_returns queries source topics
              {| issued := []; searchResults := [] |}) as [st Hst].
  exists st. split; [exact Hst|]. unfold category_search. now rewrite Hst.
Qed.

Lemma for_of_cons {X} (x : X) (rest : list X) (body : X -> Eff unit) (st : Search) :
  for_of (x :: rest) body st =
  match body x st with
  | (Normal _, st') => for_of rest body st'
  | (Throw e, st') => (Throw e, st')
  end.
Proof. reflexivity. Qed.

(** The turn of a topic that has one query: the query is sent, its results
    are pushed when it succeeds, and the turn completes normally. *)
Lemma topic_turn_single_query (query source : string) (st : Search) :
  try_catch
    (for_of [query] (fun query =>
       results <- performDuckDuckGoSearch query source ;; push_results results))
    (fun _ => ret tt) st =
  (Normal tt,
   {| issued := issued st ++ [query];
      searchResults :=
        match network (length (issued st)) query with
        | Failed _ => searchResults st
        | Page doc => searchResults st ++ scrape source query doc
        end |}).
Proof.
  unfold try_catch. rewrite for_of_cons. unfold bind.
  rewrite performDuckDuckGoSearch_returns.
  destruct (network (length (issued st)) query); reflexivity.
Qed.

(** With one query for each topic, as in the documentation and the video
    search, a failed query costs nothing but its own results: every topic's
    query is sent. *)
Lemma search_topics_single_query (query_of : string -> string) (source : string)
    (topics : list string) (st : Search) :
  issued (snd (search_topics (fun topic => [query_of topic]) source topics st)) =
  issued st ++ map query_of topics.
Proof.
  unfold Content.search_topics. revert st.
  induction topics as [|topic rest IH]; intros st.
  - simpl. now rewrite app_nil_r.
  - rewrite for_of_cons, topic_turn_single_query, IH. simpl.
    now rewrite <- app_assoc.
Qed.

(** C9, at the failing input.  A result block whose title is [***] and whose
    link goes to an official page passes the guard on title and URL, and the
    result [performDuckDuckGoSearch] emits for it has the empty title that
    [cleanTitle] leaves. *)
Theorem performDuckDuckGoSearch_empty_title :
  exists r,
    fst (Content.performDuckDuckGoSearch URL_hostname uddg_param 15
           (fun _ _ => Page (Samples.page_of [Samples.starred_row]))
           "openshift" "Red Hat Docs" Samples.fresh) = Normal (Some [r]) /\
    title r = "" /\
    url r = "https://www.redhat.com/en/technologies".
Proof. eexists. split; [vm_compute; reflexivity | split; reflexivity]. Qed.

(** C4, at the failing input.  In the training search a topic has two
    queries.  When the first one fails the second one is never sent, although
    it would have returned a result: the search ends with no result and one
    request. *)
Theorem searchRedHatTraining_skips_second_query :
  let first_query := quoted "Red Hat training" +:+ " " +:+ quoted "ansible" in
  let second_query := quoted "Red Hat certification" +:+ " " +:+ quoted "ansible" in
  let out := searchRedHatTraining URL_hostname uddg_param 15
               Samples.first_request_fails ["ansible"] in
  training_queries "ansible" = [first_query; second_query] /\
  requests out = [first_query] /\
  results out = [] /\
  exists r,
    fst (Content.performDuckDuckGoSearch URL_hostname uddg_param 15
           Samples.first_request_fails second_query "Red Hat Training"
           {| issued := [first_query]; searchResults := [] |}) = Normal (Some [r]) /\
    title r = "Red Hat Certified Specialist in Ansible".
Proof.
  repeat split.
  eexists. split; [vm_compute; reflexivity | reflexivity].
Qed.

End SearchFacts.

(** ** Recovery of the learning path from the model output *)

Section LearningPathFacts.

Import JS LLM.

Variable JSON_parse : string -> completion value.
Variable model : string.
Variable ollama_list : completion (list string).
Variable ollama_generate : string -> completion string.
Variable systemPrompt : string.

Local Abbreviation parseLearningPathResponse := (parseLearningPathResponse JSON_parse).
Local Abbreviation parse_body := (parse_body JSON_parse).
Local Abbreviation generateLearningPath :=
  (generateLearningPath JSON_parse model ollama_list ollama_generate systemPrompt).

Lemma through_last_spec (c : ascii) (s m : string) :
  through_last c s = Some m ->
  exists body post, m = body +:+ String c "" /\ s = m +:+ post /\
                    includes post (String c "") = false.
Proof.
  revert m. induction s as [|a s IH]; intros m; simpl; [discriminate|].
  destruct (through_last c s) as [t|] eqn:Ht.
  - intros [= <-]. destruct (IH t eq_refl) as [body [post [Hb [Hs Hp]]]].
    exists (String a body), post. rewrite !append_cons. repeat split; congruence.
  - destruct (Ascii.eqb_spec a c) as [->|Hne]; [|discriminate].
    intros [= <-]. exists "", s. repeat split.
    clear IH. induction s as [|b s IH]; [reflexivity|].
    simpl in Ht. destruct (through_last c s) eqn:Hs; [discriminate|].
    destruct (Ascii.eqb_spec b c) as [->|Hne]; [discriminate|].
    simpl. destruct (Ascii.eqb_spec c b) as [->|_]; [contradiction|].
    simpl. now apply IH.
Qed.

Lemma from_first_spec (c : ascii) (s rest : string) :
  from_first c s = Some rest ->
  exists pre tail, rest = String c tail /\ s = pre +:+ rest /\
                   includes pre (String c "") = false.
Proof.
  induction s as [|a s IH]; simpl; [discriminate|].
  destruct (Ascii.eqb_spec a c) as [->|Hne].
  - intros [= <-]. now exists "", s.
  - intros H. destruct (IH H) as [pre [tail [Hr [Hs Hp]]]].
    exists (String a pre), tail. rewrite append_cons. repeat split; try congruence.
    simpl. destruct (Ascii.eqb_spec c a) as [->|_]; [contradiction|]. exact Hp.
Qed.

(** The match of the brace pattern starts at the first opening brace of
    the text and ends at its last closing brace. *)
Lemma match_braces_spec (s m : string) :
  match_braces s = Some m ->
  exists pre body post,
    s = pre +:+ m +:+ post /\ m = String "{" body +:+ "}" /\
    includes pre "{" = false /\ includes post "}" = false.
Proof.
  unfold match_braces. destruct (from_first "{" s) as [rest|] eqn:Hf; [|discriminate].
  intros Ht. apply from_first_spec in Hf as [pre [tail [Hr [Hs Hp]]]].
  apply through_last_spec in Ht as [body [post [Hb [Hm Hq]]]].
  destruct body as [|b body].
  - exfalso. rewrite Hb in Hm. rewrite Hr in Hm. rewrite append_nil, append_cons in Hm.
    discriminate.
  - assert (b = "{"%char) as ->.
    { rewrite Hb, Hr in Hm. rewrite !append_cons in Hm. congruence. }
    exists pre, body, post.
    split; [rewrite Hs, Hm; reflexivity|].
    split; [exact Hb|]. split; assumption.
Qed.

Example match_braces_greedy :
  match_braces "Here you go: {a} and {b}. Enjoy" = Some "{a} and {b}".
Proof. reflexivity. Qed.

Example match_braces_none : match_braces "} no opening brace before {" = None.
Proof. reflexivity. Qed.

(** The fixed fall-back object: its title, its single phase 1, named
    Foundation Phase, with no resources, its certification advice, and the
    two annotations. *)
Lemma fallback_shape (response message : string) :
  get (fallback response message) "title" = Normal (Some (Str "Custom Red Hat Learning Path")) /\
  (exists phase,
     get (fallback response message) "phases" = Normal (Some (Arr [phase])) /\
     get phase "phase" = Normal (Some (Num (Finite 1 0))) /\
     get phase "title" = Normal (Some (Str "Foundation Phase")) /\
     get phase "resources" = Normal (Some (Arr []))) /\
  (exists path,
     get (fallback response message) "certificationPath" = Normal (Some path) /\
     get path "recommended" =
       Normal (Some (Arr [Str "Red Hat Certified System Administrator (RHCSA)"]))) /\
  get (fallback response message) "rawResponse" = Normal (Some (Str response)) /\
  get (fallback response message) "parseError" = Normal (Some (Str message)).
Proof.
  split; [reflexivity|]. split; [eexists; repeat split|].
  split; [eexists; repeat split|]. split; reflexivity.
Qed.

(** What the [try] block accepts: a parsed value whose [title] and [phases]
    are truthy. *)
Lemma parse_body_accepts (response : string) (parsed : value) :
  parse_body response = Normal parsed <->
  JSON_parse (extract_json response) = Normal parsed /\
  exists t p, get parsed "title" = Normal (Some t) /\ truthy (Some t) = true /\
              get parsed "phases" = Normal (Some p) /\ truthy (Some p) = true.
Proof.
  unfold LLM.parse_body.
  destruct (JSON_parse (extract_json response)) as [v|e];
    [|split; [discriminate | intros [H _]; discriminate]].
  split.
  - destruct (get v "title") as [[t|]|e] eqn:Ht; try discriminate.
    destruct (truthy (Some t)) eqn:Htt; try discriminate. simpl.
    destruct (get v "phases") as [[p|]|e] eqn:Hp; try discriminate.
    destruct (truthy (Some p)) eqn:Hpp; try discriminate. simpl.
    intros [= <-]. split; [reflexivity|]. exists t, p. tauto.
  - intros [[= ->] [t [p [Ht [Htt [Hp Hpp]]]]]].
    rewrite Ht, Htt. simpl. rewrite Hp, Hpp. reflexivity.
Qed.

Lemma truthy_not_null (v : value) : truthy (Some v) = true -> v <> Null.
Proof. intros H ->. discriminate. Qed.

(** C10.  [parseLearningPathResponse] is total.  Its result always has a
    [title] and a [phases] property that are present and not null: it is
    either the fixed fall-back object, or the value [JSON.parse] gave for the
    extracted text, accepted because both properties are truthy. *)
Theorem parseLearningPathResponse_total (response : string) :
  let learningPath := parseLearningPathResponse response in
  exists t p,
    get learningPath "title" = Normal (Some t) /\ t <> Null /\
    get learningPath "phases" = Normal (Some p) /\ p <> Null /\
    ((exists message, learningPath = fallback response message) \/
     (JSON_parse (extract_json response) = Normal learningPath /\
      truthy (Some t) = true /\ truthy (Some p) = true)).
Proof.
  intros learningPath. unfold learningPath, LLM.parseLearningPathResponse.
  destruct (parse_body response) as [parsed|message] eqn:Hb.
  - apply parse_body_accepts in Hb as [Hj [t [p [Ht [Htt [Hp Hpp]]]]]].
    exists t, p. repeat split; try assumption.
    + now apply truthy_not_null.
    + now apply truthy_not_null.
    + right. tauto.
  - eexists _, _. split; [reflexivity|]. split; [discriminate|].
    split; [reflexivity|]. split; [discriminate|]. left. now exists message.
Qed.

(** The failures the [catch] block of [parseLearningPathResponse] recovers
    from, with the message each one leaves in [parseError]. *)
Lemma parseLearningPathResponse_unparsable (response message : string) :
  JSON_parse (extract_json response) = Throw message ->
  parseLearningPathResponse response = fallback response message.
Proof.
  intros H. unfold LLM.parseLearningPathResponse, LLM.parse_body. now rewrite H.
Qed.

Lemma parseLearningPathResponse_missing_keys (response : string) (parsed : value)
    (t p : option value) :
  JSON_parse (extract_json response) = Normal parsed ->
  get parsed "title" = Normal t -> get parsed "phases" = Normal p ->
  truthy t && truthy p = false ->
  parseLearningPathResponse response =
    fallback response "Invalid learning path structure".
Proof.
  intros Hj Ht Hp Hf. unfold LLM.parseLearningPathResponse, LLM.parse_body.
  rewrite Hj, Ht. destruct (truthy t); simpl; [|reflexivity].
  rewrite Hp. simpl in Hf. now rewrite Hf.
Qed.

Lemma parseLearningPathResponse_null (response : string) :
  JSON_parse (extract_json response) = Normal Null ->
  parseLearningPathResponse response =
    fallback response "Cannot read properties of null (reading 'title')".
Proof.
  intros Hj. unfold LLM.parseLearningPathResponse, LLM.parse_body. now rewrite Hj.
Qed.

Lemma healthy_iff :
  healthy (checkOllamaHealth model ollama_list) = true <->
  exists names, ollama_list = Normal names /\ model ∈ names.
Proof.
  unfold checkOllamaHealth. destruct ollama_list as [names|e].
  - destruct (existsb (fun name => String.eqb name model) names) eqn:He; simpl.
    + split; [intros _|reflexivity]. exists names. split; [reflexivity|].
      apply existsb_exists in He as [n [Hin Hn]]. apply String.eqb_eq in Hn. subst n.
      now apply list_elem_of_In.
    + split; [discriminate|]. intros [names' [[= <-] Hin]].
      assert (existsb (fun name => String.eqb name model) names = true); [|congruence].
      apply existsb_exists. exists model. split; [now apply list_elem_of_In | apply String.eqb_refl].
  - simpl. split; [discriminate | intros [names [H _]]; discriminate].
Qed.

(** C1, as amended.  When the model is installed and answers, the call
    returns what [parseLearningPathResponse] makes of the answer: for an
    answer that [JSON.parse] rejects, or whose [title] or [phases] is missing,
    the fixed fall-back object annotated with the raw answer and the error
    message.  When the model is unavailable (the list of models cannot be
    read, the configured model is not installed, or the generation request
    fails) the call raises an error to the caller. *)
Theorem generateLearningPath_outcomes (userProfile : UserProfile)
    (searchResults : SearchResults) :
  let fullPrompt :=
    systemPrompt +:+ nl +:+ nl +:+ buildUserPrompt userProfile searchResults in
  let outcome := generateLearningPath userProfile searchResults in
  (forall names response,
     ollama_list = Normal names -> model ∈ names ->
     ollama_generate fullPrompt = Normal response ->
     outcome = Normal (parseLearningPathResponse response) /\
     (forall message,
        JSON_parse (extract_json response) = Throw message ->
        outcome = Normal (fallback response message)) /\
     (forall parsed t p,
        JSON_parse (extract_json response) = Normal parsed ->
        get parsed "title" = Normal t -> get parsed "phases" = Normal p ->
        truthy t && truthy p = false ->
        outcome = Normal (fallback response "Invalid learning path structure"))) /\
  (forall message,
     ollama_list = Throw message ->
     outcome = Throw ("Failed to generate learning path: Ollama service unavailable: "
                      +:+ message)) /\
  (forall names,
     ollama_list = Normal names -> model ∉ names ->
     outcome = Throw ("Failed to generate learning path: Ollama service unavailable: "
                      +:+ ("Model " +:+ model +:+ " not found"))) /\
  (forall names message,
     ollama_list = Normal names -> model ∈ names ->
     ollama_generate fullPrompt = Throw message ->
     outcome = Throw ("Failed to generate learning path: " +:+ message)).
Proof.
  intros fullPrompt outcome.
  unfold outcome, LLM.generateLearningPath, generate_body. fold fullPrompt.
  split; [|split; [|split]].
  - intros names response Hl Hin Hg.
    assert (Hh : healthy (checkOllamaHealth model ollama_list) = true)
      by (apply healthy_iff; now exists names).
    rewrite Hh, Hg. simpl. split; [reflexivity|]. split.
    + intros message Hj. now rewrite (parseLearningPathResponse_unparsable _ _ Hj).
    + intros parsed t p Hj Ht Hp Hf.
      now rewrite (parseLearningPathResponse_missing_keys _ _ _ _ Hj Ht Hp Hf).
  - intros message Hl. unfold checkOllamaHealth. rewrite Hl. reflexivity.
  - intros names Hl Hout.
    destruct (healthy (checkOllamaHealth model ollama_list)) eqn:Hh.
    + apply healthy_iff in Hh as [names' [Hl' Hin]]. congruence.
    + simpl. unfold checkOllamaHealth in *. rewrite Hl in *.
      destruct (existsb _ names); [discriminate | reflexivity].
  - intros names message Hl Hin Hg.
    assert (Hh : healthy (checkOllamaHealth model ollama_list) = true)
      by (apply healthy_iff; now exists names).
    now rewrite Hh, Hg.
Qed.

End LearningPathFacts.

(** C1, the claim as stated fails: when the configured model is not
    installed the call raises an error, whatever the profile and the search
    results are; no fall-back object is returned. *)
Lemma generateLearningPath_raises :
  exists installed,
    forall JSON_parse ollama_generate systemPrompt userProfile searchResults,
      LLM.generateLearningPath JSON_parse "llama3.2:latest" (LLM.Normal installed)
        ollama_generate systemPrompt userProfile searchResults =
      LLM.Throw "Failed to generate learning path: Ollama service unavailable: Model llama3.2:latest not found".
Proof. exists ["mistral:latest"]. intros. reflexivity. Qed.

Example parseLearningPathResponse_empty :
  LLM.parseLearningPathResponse Samples.rejects_prose "" =
  LLM.fallback "" "Unexpected token in JSON".
Proof. reflexivity. Qed.

Example generateLearningPath_prose :
  LLM.generateLearningPath Samples.rejects_prose "llama3.2:latest"
    (LLM.Normal ["llama3.2:latest"])
    (fun _ => LLM.Normal "Sure! Here is a plan for you.") "system"
    Samples.learner Samples.no_content =
  LLM.Normal (LLM.fallback "Sure! Here is a plan for you." "Unexpected token in JSON").
Proof. reflexivity. Qed.

(** * Further properties of the code *)

(** ** The cleaning functions *)

Section CleaningFacts.

Import JS Content Shape.

Lemma trimStart_idempotent (s : string) : trimStart (trimStart s) = trimStart s.
Proof.
  induction s as [|c s IH]; simpl; [reflexivity|].
  destruct (is_space c) eqn:Hc; [exact IH|]. simpl. now rewrite Hc.
Qed.

Lemma trimEnd_idempotent (s : string) : trimEnd (trimEnd s) = trimEnd s.
Proof.
  induction s as [|c s IH]; simpl; [reflexivity|].
  destruct (is_space c && is_empty (trimEnd s)) eqn:Hc; [reflexivity|].
  simpl. rewrite IH, Hc. reflexivity.
Qed.

Lemma trimStart_trimEnd (s : string) :
  trimStart s = s -> trimStart (trimEnd s) = trimEnd s.
Proof.
  destruct s as [|c s]; simpl; [reflexivity|].
  destruct (is_space c) eqn:Hc.
  - intros H. exfalso.
    assert (Hlen : forall t, (String.length (trimStart t) <= String.length t)%nat).
    { clear. induction t as [|a t IH]; simpl; [lia|]. destruct (is_space a); simpl; lia. }
    specialize (Hlen s). rewrite H in Hlen. simpl in Hlen. lia.
  - intros _. simpl. now rewrite Hc.
Qed.

Lemma trim_trimmed (s : string) : trimmed (trim s).
Proof.
  unfold trimmed, trim. split.
  - apply trimStart_trimEnd, trimStart_idempotent.
  - apply trimEnd_idempotent.
Qed.

Lemma trim_idempotent (s : string) : trim (trim s) = trim s.
Proof.
  destruct (trim_trimmed s) as [H1 H2]. unfold trim at 1. now rewrite H1, H2.
Qed.

Lemma all_chars_trimStart (p : ascii -> bool) (s : string) :
  all_chars p s = true -> all_chars p (trimStart s) = true.
Proof.
  induction s as [|c s IH]; simpl; [trivial|].
  intros H. apply andb_true_iff in H as [Hc Hs].
  destruct (is_space c); [now apply IH|]. simpl. now rewrite Hc, Hs.
Qed.

Lemma all_chars_trimEnd (p : ascii -> bool) (s : string) :
  all_chars p s = true -> all_chars p (trimEnd s) = true.
Proof.
  induction s as [|c s IH]; simpl; [trivial|].
  intros H. apply andb_true_iff in H as [Hc Hs].
  destruct (is_space c && is_empty (trimEnd s)); [reflexivity|].
  simpl. rewrite Hc. now apply IH.
Qed.

Lemma all_chars_keep (p q : ascii -> bool) (s : string) :
  all_chars q s = true ->
  all_chars (fun c => p c && q c) (keep p s) = true.
Proof.
  induction s as [|c s IH]; simpl; [trivial|].
  intros H. apply andb_true_iff in H as [Hc Hs].
  destruct (p c) eqn:Hp; [|now apply IH]. simpl. rewrite Hp, Hc. now apply IH.
Qed.

Lemma all_chars_collapse (in_run : bool) (s : string) :
  all_chars (fun c => negb (is_space c) || (code c =? 32)%N) (collapse_from in_run s) = true.
Proof.
  revert in_run. induction s as [|c s IH]; intros in_run; simpl; [reflexivity|].
  destruct (is_space c) eqn:Hc.
  - destruct in_run; [apply IH|]. simpl. apply IH.
  - simpl. rewrite Hc. simpl. apply IH.
Qed.

Lemma title_kept_spec (c : ascii) :
  title_char c && (negb (is_space c) || (code c =? 32)%N) = title_kept c.
Proof. destruct c as [[] [] [] [] [] [] [] []]; vm_compute; reflexivity. Qed.

Lemma all_chars_ext (p q : ascii -> bool) (s : string) :
  (forall c, p c = q c) -> all_chars p s = all_chars q s.
Proof. intros H. induction s as [|c s IH]; simpl; [reflexivity | now rewrite H, IH]. Qed.

Lemma plain_space (c : ascii) : (code c =? 32)%N = true -> c = " "%char.
Proof. destruct c as [[] [] [] [] [] [] [] []]; vm_compute; congruence. Qed.

Lemma collapse_single_spaced (in_run : bool) (s : string) :
  single_spaced in_run s = true -> collapse_from in_run s = s.
Proof.
  revert in_run. induction s as [|c s IH]; intros in_run; simpl; [reflexivity|].
  destruct (is_space c).
  - intros H. apply andb_true_iff in H as [H Hs]. apply andb_true_iff in H as [Hc Hr].
    destruct in_run; [discriminate|].
    rewrite (IH true Hs). now rewrite (plain_space c Hc).
  - intros Hs. now rewrite (IH false Hs).
Qed.

Lemma keep_all (p : ascii -> bool) (s : string) :
  all_chars p s = true -> keep p s = s.
Proof.
  induction s as [|c s IH]; simpl; [reflexivity|].
  intros H. apply andb_true_iff in H as [Hc Hs]. now rewrite Hc, IH.
Qed.

Lemma all_chars_title_kept (s : string) :
  all_chars title_kept s = true -> all_chars title_char s = true.
Proof.
  induction s as [|c s IH]; simpl; [reflexivity|].
  intros H. apply andb_true_iff in H as [Hc Hs].
  rewrite <- title_kept_spec in Hc. apply andb_true_iff in Hc as [Hc _].
  now rewrite Hc, IH.
Qed.

(** [cleanTitle] returns a string made of word characters, plain spaces and
    the punctuation - ( ) [ ] . , : ; ! ? and the two quote marks only:
    every other code unit, tabs and line breaks included, is gone, and there
    is no white space at either end.  A title that is of that form already,
    with single spaces, is returned as it is. *)
Theorem cleanTitle_shape (title : string) :
  all_chars title_kept (cleanTitle title) = true /\
  trimmed (cleanTitle title) /\
  (all_chars title_kept title = true -> single_spaced false title = true ->
   trimmed title -> cleanTitle title = title).
Proof.
  unfold cleanTitle. split; [|split; [apply trim_trimmed|]].
  - rewrite <- (all_chars_ext _ _ _ title_kept_spec).
    unfold trim. apply all_chars_trimEnd, all_chars_trimStart.
    apply all_chars_keep. unfold collapse_spaces. apply all_chars_collapse.
  - intros Hk Hs [Ht1 Ht2]. unfold collapse_spaces.
    rewrite (collapse_single_spaced false title Hs).
    rewrite (keep_all _ _ (all_chars_title_kept _ Hk)).
    unfold trim. now rewrite Ht1, Ht2.
Qed.

(** All the punctuation of the class is kept, and nothing else is. *)
Example cleanTitle_punctuation :
  cleanTitle "Hi, there: what's new; ok?!" = "Hi, there: what's new; ok?!" /\
  cleanTitle "(a) [b] c-d e.f g_h" = "(a) [b] c-d e.f g_h" /\
  cleanTitle (String (ascii_of_N 34) "quoted" +:+ String (ascii_of_N 34) "") =
    String (ascii_of_N 34) "quoted" +:+ String (ascii_of_N 34) "" /\
  cleanTitle "50% off @ <b>Red Hat</b> #1 & more" = "50 off  bRed Hatb 1  more".
Proof. repeat split; reflexivity. Qed.

(** Removing characters can leave two spaces side by side: the cleaned
    title is not always collapsed, and cleaning it again changes it. *)
Example cleanTitle_not_idempotent :
  cleanTitle "OpenShift * Guide" = "OpenShift  Guide" /\
  cleanTitle (cleanTitle "OpenShift * Guide") = "OpenShift Guide".
Proof. split; reflexivity. Qed.

Lemma single_spaced_weaken (s : string) :
  single_spaced true s = true -> single_spaced false s = true.
Proof.
  destruct s as [|c s]; simpl; [trivial|].
  destruct (is_space c); [|trivial]. rewrite andb_false_r. discriminate.
Qed.

Lemma single_spaced_any (b : bool) (s : string) :
  single_spaced true s = true -> single_spaced b s = true.
Proof. destruct b; [trivial | apply single_spaced_weaken]. Qed.

Lemma single_spaced_collapse (in_run : bool) (s : string) :
  single_spaced in_run (collapse_from in_run s) = true.
Proof.
  revert in_run. induction s as [|c s IH]; intros in_run; simpl; [reflexivity|].
  destruct (is_space c) eqn:Hc.
  - destruct in_run; [apply IH|]. simpl. apply IH.
  - simpl. rewrite Hc. apply IH.
Qed.

Lemma single_spaced_tail (b : bool) (c : ascii) (s : string) :
  single_spaced b (String c s) = true -> single_spaced false s = true.
Proof.
  simpl. destruct (is_space c).
  - intros H. apply andb_true_iff in H as [_ H]. now apply single_spaced_weaken.
  - trivial.
Qed.

Lemma single_spaced_drop (n : nat) (b : bool) (s : string) :
  single_spaced b s = true -> single_spaced false (drop n s) = true.
Proof.
  revert b s. induction n as [|n IH]; intros b s H; simpl.
  - destruct b; [now apply single_spaced_weaken | exact H].
  - destruct s as [|c s]; [reflexivity|].
    apply single_spaced_tail in H. now apply (IH false).
Qed.

Lemma single_spaced_trimStart (b : bool) (s : string) :
  single_spaced b s = true -> single_spaced false (trimStart s) = true.
Proof.
  revert b. induction s as [|c s IH]; intros b H; simpl; [reflexivity|].
  destruct (is_space c) eqn:Hc.
  - apply single_spaced_tail in H. now apply (IH false).
  - simpl in *. now rewrite Hc in *.
Qed.

Lemma single_spaced_take (n : nat) (b : bool) (s : string) :
  single_spaced b s = true -> single_spaced b (take n s) = true.
Proof.
  revert b s. induction n as [|n IH]; intros b s H; simpl; [reflexivity|].
  destruct s as [|c s]; [reflexivity|]. simpl in *.
  destruct (is_space c).
  - apply andb_true_iff in H as [H1 H2]. rewrite H1. simpl. now apply IH.
  - now apply IH.
Qed.

Lemma single_spaced_trimEnd (b : bool) (s : string) :
  single_spaced b s = true -> single_spaced b (trimEnd s) = true.
Proof.
  revert b. induction s as [|c s IH]; intros b H; simpl; [reflexivity|].
  destruct (is_space c && is_empty (trimEnd s)); [reflexivity|].
  simpl in *. destruct (is_space c).
  - apply andb_true_iff in H as [H1 H2]. rewrite H1. simpl. now apply IH.
  - now apply IH.
Qed.

(** [cleanDescription] returns a string in which every run of white space
    is one plain space, with no white space at either end. *)
Theorem cleanDescription_shape (description : string) :
  single_spaced false (cleanDescription description) = true /\
  trimmed (cleanDescription description).
Proof.
  unfold cleanDescription. split; [|apply trim_trimmed].
  unfold trim. apply single_spaced_trimEnd, (single_spaced_trimStart false).
  assert (H0 : single_spaced false (collapse_spaces description) = true)
    by apply single_spaced_collapse.
  assert (H1 : single_spaced false
                 (strip_leading_ellipsis (collapse_spaces description)) = true).
  { unfold strip_leading_ellipsis. destruct (startsWith _ "..."); [|exact H0].
    apply (single_spaced_trimStart false), (single_spaced_drop 3 false), H0. }
  unfold strip_trailing_ellipsis. destruct (endsWith _ "..."); [|exact H1].
  now apply single_spaced_trimEnd, single_spaced_take.
Qed.

End CleaningFacts.

(** ** What a query returns *)

Section EmittedFacts.

Import JS Content Shape Emitted.

Variable URL_hostname : string -> option string.
Variable uddg_param : string -> option string.
Variable maxResults : Z.
Variable network : nat -> string -> Response.

Local Abbreviation extractDomain := (extractDomain URL_hostname).
Local Abbreviation process_row := (process_row URL_hostname uddg_param).
Local Abbreviation scan_selectors := (scan_selectors URL_hostname uddg_param maxResults).
Local Abbreviation scrape := (scrape URL_hostname uddg_param maxResults).
Local Abbreviation performDuckDuckGoSearch :=
  (performDuckDuckGoSearch URL_hostname uddg_param maxResults network).
Local Abbreviation emitted := (emitted URL_hostname).

Lemma lower_char_idempotent (c : ascii) : lower_char (lower_char c) = lower_char c.
Proof. destruct c as [[] [] [] [] [] [] [] []]; vm_compute; reflexivity. Qed.

Lemma toLowerCase_idempotent (s : string) : toLowerCase (toLowerCase s) = toLowerCase s.
Proof.
  induction s as [|c s IH]; simpl; [reflexivity|].
  now rewrite lower_char_idempotent, IH.
Qed.

Lemma extractDomain_lower (url : string) :
  toLowerCase (extractDomain url) = extractDomain url.
Proof.
  unfold Content.extractDomain. destruct (URL_hostname url) as [h|];
    [apply toLowerCase_idempotent | reflexivity].
Qed.

(** [extractDomain] always returns a lower-case string: the lower-cased
    host name of a URL that parses, and [unknown] for one that does not.
    The text [unknown] does not tell the two apart: it is also the domain of
    a URL whose host name is [unknown] in any letter case. *)
Theorem extractDomain_lowercase (url : string) :
  toLowerCase (extractDomain url) = extractDomain url /\
  (URL_hostname url = None -> extractDomain url = "unknown") /\
  (forall hostname, URL_hostname url = Some hostname ->
                    extractDomain url = toLowerCase hostname) /\
  (extractDomain url = "unknown" <->
   URL_hostname url = None \/
   exists hostname, URL_hostname url = Some hostname /\
                    toLowerCase hostname = "unknown").
Proof.
  unfold Content.extractDomain. destruct (URL_hostname url) as [h|].
  - split; [apply toLowerCase_idempotent|]. split; [discriminate|].
    split; [now intros hostname [= ->]|]. split.
    + intros H. right. now exists h.
    + intros [H | [hostname [[= ->] H]]]; [discriminate | exact H].
  - split; [reflexivity|]. split; [reflexivity|]. split; [discriminate|].
    split; [now left | reflexivity].
Qed.

Lemma determineContentType_known (url title : string) :
  url <> "" -> determineContentType url title <> unknown.
Proof.
  intros Hu. unfold determineContentType. destruct url as [|c url']; [congruence|].
  change (truthy (String c url')) with true. cbv match beta. simpl negb. cbv iota.
  repeat match goal with
         | |- context [if ?b then _ else _] => destruct b
         end; discriminate.
Qed.

Lemma process_row_emitted (source query : string) (row : Row) (r : ContentResult) :
  process_row source query row = Some r -> emitted source query r.
Proof.
  unfold Content.process_row.
  destruct (clean_url uddg_param (row_href row)) as [u|]; [|discriminate].
  destruct (truthy (row_title row)) eqn:Ht; [|discriminate].
  destruct (truthy u) eqn:Hu; [|discriminate]. simpl.
  destruct (isRedHatRelated _ _ _) eqn:Hr; [|discriminate].
  intros [= <-]. apply truthy_spec in Ht, Hu.
  unfold emitted. simpl. repeat split; try assumption.
  - apply extractDomain_lower.
  - now apply determineContentType_known.
  - apply trim_trimmed.
  - apply trim_trimmed.
  - apply trim_trimmed.
  - apply trim_trimmed.
  - exists (row_title row), (row_description row (row_title row)). tauto.
Qed.

Lemma scan_selectors_found (source query : string) (doc : Document)
    (selectors : list string) (acc : list ContentResult) :
  scan_selectors source query doc selectors acc true = acc.
Proof. destruct selectors; reflexivity. Qed.

(** The results come from one selector: the first of the list whose blocks
    give any result. *)
Lemma scan_selectors_one (source query : string) (doc : Document)
    (selectors : list string) :
  scan_selectors source query doc selectors [] false = [] \/
  exists selector,
    selector ∈ selectors /\
    scan_selectors source query doc selectors [] false =
      omap (process_row source query) (firstn (Z.to_nat maxResults) (doc selector)).
Proof.
  induction selectors as [|sel rest IH]; simpl; [now left|].
  destruct (omap (process_row source query) (firstn (Z.to_nat maxResults) (doc sel)))
    as [|r pushed] eqn:Hp.
  - simpl. destruct IH as [IH | [s [Hs IH]]]; [now left|].
    right. exists s. split; [now right | exact IH].
  - right. exists sel. split; [left|].
    change (negb (Z.of_nat (length (r :: pushed)) =? 0)) with true.
    now rewrite scan_selectors_found.
Qed.

Lemma length_omap {X Y} (f : X -> option Y) (l : list X) :
  (length (omap f l) <= length l)%nat.
Proof.
  induction l as [|x l IH]; [reflexivity|].
  change (omap f (x :: l))
    with (match f x with Some y => y :: omap f l | None => omap f l end).
  destruct (f x); simpl; lia.
Qed.

Lemma scrape_emitted (source query : string) (doc : Document) :
  Forall (emitted source query) (scrape source query doc).
Proof.
  unfold Content.scrape.
  destruct (scan_selectors_one source query doc resultSelectors) as [H | [sel [Hs H]]];
    rewrite H; [constructor|].
  apply Forall_forall. intros r Hr.
  apply list_elem_of_omap in Hr as [row [_ Hrow]].
  now apply process_row_emitted in Hrow.
Qed.

(** The loop over the selectors stops at the first one whose blocks give a
    result: the selectors before it gave none, and the results are its own. *)
Lemma scan_selectors_first (source query : string) (doc : Document)
    (selectors : list string) :
  let kept selector :=
    omap (process_row source query) (firstn (Z.to_nat maxResults) (doc selector)) in
  (scan_selectors source query doc selectors [] false = [] /\
   forall selector, selector ∈ selectors -> kept selector = []) \/
  exists earlier selector later,
    selectors = earlier ++ selector :: later /\
    (forall s, s ∈ earlier -> kept s = []) /\
    kept selector <> [] /\
    scan_selectors source query doc selectors [] false = kept selector.
Proof.
  intros kept. induction selectors as [|sel rest IH]; simpl.
  - left. split; [reflexivity|]. intros selector H. now apply elem_of_nil in H.
  - fold (kept sel). destruct (kept sel) as [|r pushed] eqn:Hp.
    + simpl. destruct IH as [[IH Hall] | [earlier [s [later [Hsplit [Hearlier [Hs IH]]]]]]].
      * left. split; [exact IH|]. intros selector H.
        apply elem_of_cons in H as [-> | H]; [exact Hp | now apply Hall].
      * right. exists (sel :: earlier), s, later. subst rest.
        split; [reflexivity|]. split; [|split; [exact Hs | exact IH]].
        intros s' H. apply elem_of_cons in H as [-> | H]; [exact Hp | now apply Hearlier].
    + right. exists [], sel, rest. split; [reflexivity|].
      split; [intros s H; now apply elem_of_nil in H|]. split; [now rewrite Hp|].
      change (negb (Z.of_nat (length (r :: pushed)) =? 0)) with true.
      rewrite scan_selectors_found. now rewrite Hp.
Qed.

(** The results of one query.  When the request returns a page,
    [performDuckDuckGoSearch] returns what the loop over the selectors
    collects from it.  These results are those of the first selector, in the
    order of the list, whose blocks give any: the selectors before it gave
    none, and when the result is empty no selector gives any.  So there are at
    most [maxResults] results (none when [maxResults] is not positive), and
    each one carries the source label and the query, a URL that is not empty,
    the lower-case domain of that URL, a type that is not [unknown], and a
    cleaned title and description. *)
Theorem scrape_results (source query : string) (doc : Document) :
  let kept selector :=
    omap (process_row source query) (firstn (Z.to_nat maxResults) (doc selector)) in
  (forall st, network (length (issued st)) query = Page doc ->
              fst (performDuckDuckGoSearch query source st) =
              Normal (Some (scrape source query doc))) /\
  (length (scrape source query doc) <= Z.to_nat maxResults)%nat /\
  ((scrape source query doc = [] /\
    forall selector, selector ∈ resultSelectors -> kept selector = []) \/
   exists earlier selector later,
     resultSelectors = earlier ++ selector :: later /\
     (forall s, s ∈ earlier -> kept s = []) /\
     kept selector <> [] /\
     scrape source query doc = kept selector) /\
  Forall (emitted source query) (scrape source query doc).
Proof.
  intros kept. split.
  { intros st Hn. unfold Content.performDuckDuckGoSearch, try_catch, bind, fetch_page, ret.
    rewrite Hn. reflexivity. }
  unfold Content.scrape.
  pose proof (scan_selectors_first source query doc resultSelectors) as Hfirst.
  cbv zeta in Hfirst. fold kept in Hfirst.
  destruct Hfirst as [[H Hall] | [earlier [sel [later [Hsplit [Hearlier [Hs H]]]]]]].
  - rewrite H. split; [simpl; lia|]. split; [left; now split | constructor].
  - rewrite H. split; [|split].
    + unfold kept. etransitivity; [apply length_omap|]. rewrite length_take.
      apply Nat.le_min_l.
    + right. now exists earlier, sel, later.
    + apply Forall_forall. intros r Hr.
      apply list_elem_of_omap in Hr as [row [_ Hrow]].
      now apply process_row_emitted in Hrow.
Qed.

End EmittedFacts.

(** A URL that parses, with the host name [unknown]. *)
Example extractDomain_host_unknown :
  Platform.plain_http_hostname "http://UNKNOWN/" = Some "unknown" /\
  Content.extractDomain Platform.plain_http_hostname "http://UNKNOWN/" = "unknown" /\
  Content.extractDomain Platform.plain_http_hostname "not a url" = "unknown".
Proof. repeat split; reflexivity. Qed.

(** ** Deduplication of concatenated lists *)

Section SortedUnique.

Import JS.

Context {A : Type} (rank : A -> Z).

Lemma filter_rank_app (k : Z) (l1 l2 : list A) :
  List.filter (fun y => rank y =? k) (l1 ++ l2) =
  List.filter (fun y => rank y =? k) l1 ++ List.filter (fun y => rank y =? k) l2.
Proof. apply List.filter_app. Qed.

(** Two lists in rank order that agree rank by rank are equal. *)
Lemma sorted_by_rank_unique (l1 l2 : list A) :
  StronglySorted (fun a b => rank a <= rank b) l1 ->
  StronglySorted (fun a b => rank a <= rank b) l2 ->
  (forall k, List.filter (fun y => rank y =? k) l1 =
             List.filter (fun y => rank y =? k) l2) ->
  l1 = l2.
Proof.
  revert l2. induction l1 as [|x l1 IH]; intros l2 Hs1 Hs2 Hf.
  - destruct l2 as [|y l2]; [reflexivity|].
    specialize (Hf (rank y)). simpl in Hf. rewrite Z.eqb_refl in Hf. discriminate.
  - destruct l2 as [|y l2].
    { specialize (Hf (rank x)). simpl in Hf. rewrite Z.eqb_refl in Hf. discriminate. }
    apply StronglySorted_inv in Hs1 as [Hs1 Hx].
    apply StronglySorted_inv in Hs2 as [Hs2 Hy].
    rewrite Forall_forall in Hx, Hy.
    assert (Hxy : rank y <= rank x).
    { pose proof (Hf (rank x)) as H. simpl in H. rewrite Z.eqb_refl in H.
      destruct (Z.eqb_spec (rank y) (rank x)) as [He|Hne]; [lia|].
      apply Hy. apply list_elem_of_In.
      assert (Hin : In x (List.filter (fun z => rank z =? rank x) l2))
        by (rewrite <- H; now left).
      now apply filter_In in Hin. }
    assert (Hyx : rank x <= rank y).
    { pose proof (Hf (rank y)) as H. simpl in H. rewrite Z.eqb_refl in H.
      destruct (Z.eqb_spec (rank x) (rank y)) as [He|Hne]; [lia|].
      apply Hx. apply list_elem_of_In.
      assert (Hin : In y (List.filter (fun z => rank z =? rank y) l1))
        by (rewrite H; now left).
      now apply filter_In in Hin. }
    assert (He : rank x = rank y) by lia.
    pose proof (Hf (rank x)) as H. simpl in H.
    rewrite Z.eqb_refl in H. rewrite <- He, Z.eqb_refl in H.
    injection H as <- Ht. f_equal. apply IH; [exact Hs1 | exact Hs2 |].
    intros k. specialize (Hf k). simpl in Hf.
    destruct (Z.eqb_spec (rank x) k) as [Hk|Hk]; [|exact Hf].
    now injection Hf.
Qed.

End SortedUnique.

Section DedupComposition.

Import JS Content Aggregator.

Variable URL_hostname : string -> option string.

Local Abbreviation dedup_key := (dedup_key URL_hostname).
Local Abbreviation first_seen := (first_seen URL_hostname).
Local Abbreviation deduplicateResults := (deduplicateResults URL_hostname).
Local Abbreviation seen_keys := (seen_keys URL_hostname).

Lemma seen_keys_cons (r : ContentResult) (l : list ContentResult) :
  seen_keys (r :: l) =
  if has_title_and_url r then {[dedup_key r]} ∪ seen_keys l else seen_keys l.
Proof. unfold Aggregator.seen_keys. simpl. now destruct (has_title_and_url r). Qed.

Lemma first_seen_app (seen : gset string) (l1 l2 : list ContentResult) :
  first_seen seen (l1 ++ l2) =
  first_seen seen l1 ++ first_seen (seen ∪ seen_keys l1) l2.
Proof.
  revert seen. induction l1 as [|a l1 IH]; intros seen.
  - simpl. f_equal. unfold Aggregator.seen_keys. simpl. set_solver.
  - rewrite seen_keys_cons. simpl. rewrite (guard_has_title_and_url a).
    destruct (has_title_and_url a); simpl; [|apply IH].
    destruct (decide (dedup_key a ∈ seen)) as [Hin|Hout].
    + rewrite IH. do 2 f_equal. set_solver.
    + simpl. rewrite IH. do 3 f_equal. set_solver.
Qed.

Lemma first_seen_filter (S T : gset string) (l : list ContentResult) :
  first_seen (S ∪ T) l =
  List.filter (fun r => bool_decide (dedup_key r ∉ S)) (first_seen T l).
Proof.
  revert T. induction l as [|a l IH]; intros T; simpl; [reflexivity|].
  destruct (negb (truthy (title a)) || negb (truthy (url a))); [apply IH|].
  destruct (decide (dedup_key a ∈ T)) as [HT|HT].
  - rewrite decide_True by set_solver. apply IH.
  - destruct (decide (dedup_key a ∈ S)) as [HS|HS].
    + rewrite decide_True by set_solver. simpl.
      rewrite bool_decide_eq_false_2 by (intros H; now apply H).
      rewrite <- IH. f_equal. set_solver.
    + rewrite decide_False by set_solver. simpl.
      rewrite bool_decide_eq_true_2 by exact HS.
      f_equal. rewrite <- IH. f_equal. set_solver.
Qed.

Lemma first_seen_keys_union (seen : gset string) (l : list ContentResult) :
  seen ∪ seen_keys (first_seen seen l) = seen ∪ seen_keys l.
Proof.
  revert seen. induction l as [|a l IH]; intros seen; [reflexivity|].
  rewrite seen_keys_cons. simpl. rewrite (guard_has_title_and_url a).
  destruct (has_title_and_url a) eqn:Ha; simpl; [|apply IH].
  destruct (decide (dedup_key a ∈ seen)) as [Hin|Hout].
  - rewrite IH. set_solver.
  - rewrite seen_keys_cons, Ha.
    specialize (IH ({[dedup_key a]} ∪ seen)). set_solver.
Qed.

Lemma seen_keys_perm (l1 l2 : list ContentResult) :
  l1 ≡ₚ l2 -> seen_keys l1 = seen_keys l2.
Proof.
  intros H. unfold Aggregator.seen_keys. apply set_eq. intros k.
  rewrite !elem_of_list_to_set, !list_elem_of_In, !in_map_iff.
  split; intros [r [Hk Hr]]; exists r; (split; [exact Hk|]);
    apply filter_In in Hr as [Hr Hv]; apply filter_In; (split; [|exact Hv]);
    apply list_elem_of_In; [rewrite <- H | rewrite H]; now apply list_elem_of_In.
Qed.

Lemma seen_keys_deduplicateResults (l : list ContentResult) :
  seen_keys (deduplicateResults l) = seen_keys l.
Proof.
  rewrite (seen_keys_perm _ _ (deduplicateResults_perm URL_hostname l)).
  pose proof (first_seen_keys_union ∅ l) as H. set_solver.
Qed.

(** Results that went through [deduplicateResults] pass the loop again
    unchanged, but for those whose key was seen before. *)
Lemma first_seen_deduplicated (seen : gset string) (l : list ContentResult) :
  first_seen seen (deduplicateResults l) =
  List.filter (fun r => bool_decide (dedup_key r ∉ seen)) (deduplicateResults l).
Proof.
  replace seen with (seen ∪ ∅) at 1 by set_solver.
  rewrite first_seen_filter. f_equal.
  apply first_seen_id.
  - apply Forall_forall. intros r Hr.
    rewrite deduplicateResults_perm in Hr. now apply first_seen_keys in Hr.
  - assert (Hp : map dedup_key (deduplicateResults l) ≡ₚ
                 map dedup_key (first_seen ∅ l))
      by apply Permutation_map, deduplicateResults_perm.
    rewrite Hp. apply first_seen_NoDup.
  - intros r _. set_solver.
Qed.

Lemma filter_comm {X} (p q : X -> bool) (l : list X) :
  List.filter p (List.filter q l) = List.filter q (List.filter p l).
Proof.
  induction l as [|x l IH]; simpl; [reflexivity|].
  destruct (p x) eqn:Hp, (q x) eqn:Hq; simpl; rewrite ?Hp, ?Hq, IH; reflexivity.
Qed.

(** Deduplicating a part of the input beforehand changes nothing. *)
Lemma deduplicateResults_inner (l1 b l2 : list ContentResult) :
  deduplicateResults (l1 ++ deduplicateResults b ++ l2) =
  deduplicateResults (l1 ++ b ++ l2).
Proof.
  apply (sorted_by_rank_unique rank).
  - apply (sort_sorted _ rank compareResults_rank).
  - apply (sort_sorted _ rank compareResults_rank).
  - intros k. unfold Content.deduplicateResults at 1 3.
    rewrite !(sort_stable _ rank compareResults_rank), !uniqueResults_first_seen.
    rewrite !first_seen_app, !filter_rank_app.
    f_equal. f_equal.
    + assert (Hb : first_seen (∅ ∪ seen_keys l1) b =
                   List.filter (fun r => bool_decide (dedup_key r ∉ ∅ ∪ seen_keys l1))
                     (first_seen ∅ b)).
      { rewrite <- first_seen_filter. f_equal. set_solver. }
      rewrite first_seen_deduplicated, Hb.
      rewrite filter_comm, (filter_comm _ _ (first_seen ∅ b)).
      f_equal. unfold Content.deduplicateResults.
      rewrite (sort_stable _ rank compareResults_rank). now rewrite uniqueResults_first_seen.
    + now rewrite seen_keys_deduplicateResults.
Qed.

Lemma deduplicateResults_of_deduplicated_helper (a b c : list ContentResult) :
  deduplicateResults
    (deduplicateResults a ++ deduplicateResults b ++ deduplicateResults c) =
  deduplicateResults (a ++ b ++ c).
Proof.
  pose proof (deduplicateResults_inner [] a
                (deduplicateResults b ++ deduplicateResults c)) as H1.
  rewrite !app_nil_l in H1. rewrite H1.
  rewrite (deduplicateResults_inner a b (deduplicateResults c)).
  pose proof (deduplicateResults_inner (a ++ b) c []) as H3.
  rewrite !app_nil_r, <- !app_assoc in H3. exact H3.
Qed.


Lemma elem_of_seen_keys (k : string) (l : list ContentResult) :
  k ∈ seen_keys l <->
  exists r, r ∈ l /\ has_title_and_url r = true /\ dedup_key r = k.
Proof.
  unfold Aggregator.seen_keys. rewrite elem_of_list_to_set, list_elem_of_In, in_map_iff.
  split.
  - intros [r [Hk Hr]]. apply filter_In in Hr as [Hr Hv]. exists r.
    split; [now apply list_elem_of_In | tauto].
  - intros [r [Hr [Hv Hk]]]. exists r. split; [exact Hk|].
    apply filter_In. split; [now apply list_elem_of_In | exact Hv].
Qed.

Lemma deduplicateResults_keeps_keys_helper (results : list ContentResult)
    (r : ContentResult) :
  r ∈ results -> has_title_and_url r = true ->
  exists r', r' ∈ deduplicateResults results /\ dedup_key r' = dedup_key r.
Proof.
  intros Hr Hv.
  assert (Hk : dedup_key r ∈ seen_keys (deduplicateResults results)).
  { rewrite seen_keys_deduplicateResults. apply elem_of_seen_keys. now exists r. }
  apply elem_of_seen_keys in Hk as [r' [Hr' [_ Hk]]]. now exists r'.
Qed.

(** [deduplicateResults] only drops results: every result of the output is
    a result of the input with a title and a URL, no two results of the
    output share a key, and every key of an input result that has a title and
    a URL is still there. *)
Theorem deduplicateResults_keeps_keys (results : list ContentResult) :
  let out := deduplicateResults results in
  Forall (fun r => r ∈ results /\ title r <> "" /\ url r <> "") out /\
  (length out <= length results)%nat /\
  NoDup (map dedup_key out) /\
  (forall r, r ∈ results -> has_title_and_url r = true ->
             exists r', r' ∈ out /\ dedup_key r' = dedup_key r).
Proof.
  intros out. unfold out. split; [|split; [|split]].
  - apply Forall_forall. intros r Hr. split; [|now apply deduplicateResults_valid in Hr].
    rewrite deduplicateResults_perm in Hr.
    eapply elem_of_sublist; [exact Hr | apply first_seen_sublist].
  - rewrite (Permutation_length (deduplicateResults_perm URL_hostname results)).
    apply sublist_length, first_seen_sublist.
  - assert (Hp : map dedup_key (deduplicateResults results) ≡ₚ
                 map dedup_key (first_seen ∅ results))
      by apply Permutation_map, deduplicateResults_perm.
    rewrite Hp. apply first_seen_NoDup.
  - apply deduplicateResults_keeps_keys_helper.
Qed.

End DedupComposition.

(** ** The category searches *)

Section CategoryFacts.

Import JS Content Shape Emitted.

Variable URL_hostname : string -> option string.
Variable uddg_param : string -> option string.
Variable maxResults : Z.
Variable network : nat -> string -> Response.

Local Abbreviation scrape := (scrape URL_hostname uddg_param maxResults).
Local Abbreviation performDuckDuckGoSearch :=
  (performDuckDuckGoSearch URL_hostname uddg_param maxResults network).
Local Abbreviation search_topics := (search_topics URL_hostname uddg_param maxResults network).
Local Abbreviation category_search :=
  (category_search URL_hostname uddg_param maxResults network).
Local Abbreviation deduplicateResults := (deduplicateResults URL_hostname).
Local Abbreviation emitted := (emitted URL_hostname).

(** The results of the [i]-th request, were it for [query]: none when it
    fails. *)
Local Abbreviation answer source i query :=
  (match network i query with
   | Failed _ => []
   | Page doc => scrape source query doc
   end).

Lemma search_topics_single_results (query_of : string -> string) (source : string)
    (topics : list string) (st : Search) :
  searchResults (snd (search_topics (fun topic => [query_of topic]) source topics st)) =
  searchResults st ++
  concat (imap (fun i topic => answer source (length (issued st) + i)%nat (query_of topic))
               topics).
Proof.
  unfold Content.search_topics. revert st.
  induction topics as [|topic rest IH]; intros st.
  - simpl. now rewrite app_nil_r.
  - rewrite for_of_cons, topic_turn_single_query, IH. simpl.
    rewrite Nat.add_0_r, length_app. simpl.
    assert (Hext : imap (fun i topic0 =>
                      answer source (length (issued st) + 1 + i)%nat (query_of topic0)) rest =
                   imap ((fun i topic0 =>
                      answer source (length (issued st) + i)%nat (query_of topic0)) ∘ S) rest).
    { apply imap_ext. intros i x _. simpl.
      now replace (length (issued st) + 1 + i)%nat with (length (issued st) + S i)%nat by lia. }
    rewrite Hext.
    destruct (network (length (issued st)) (query_of topic)); simpl.
    + reflexivity.
    + now rewrite <- app_assoc.
Qed.

Lemma category_search_single_query (query_of : string -> string) (source : string)
    (topics : list string) :
  category_search (fun topic => [query_of topic]) source topics =
  {| results :=
       deduplicateResults
         (concat (imap (fun i topic => answer source i (query_of topic)) topics));
     requests := map query_of topics |}.
Proof.
  destruct (category_search_returns URL_hostname uddg_param maxResults network
              (fun topic => [query_of topic]) source topics) as [st [Hst ->]].
  pose proof (search_topics_single_query URL_hostname uddg_param maxResults network
                query_of source topics {| issued := []; searchResults := [] |}) as Hi.
  pose proof (search_topics_single_results query_of source topics
                {| issued := []; searchResults := [] |}) as Hr.
  rewrite Hst in Hi, Hr. simpl in Hi, Hr. now rewrite Hi, Hr.
Qed.

(** [searchRedHatDocs] sends one query for every topic, in order, whatever
    happens to the others, and returns the deduplicated results of the
    queries that succeeded. *)
Theorem searchRedHatDocs_every_topic (topics : list string) :
  let query topic := quoted "Red Hat" +:+ " " +:+ quoted topic +:+ " documentation" in
  let out := searchRedHatDocs URL_hostname uddg_param maxResults network topics in
  requests out = map query topics /\
  results out =
    deduplicateResults
      (concat (imap (fun i topic => answer "Red Hat Docs" i (query topic)) topics)).
Proof.
  intros query out. unfold out, searchRedHatDocs.
  change docs_queries with (fun topic => [query topic]).
  rewrite category_search_single_query. split; reflexivity.
Qed.

(** [searchRedHatVideos] sends one site-restricted query for every topic, in
    order, and returns the deduplicated results of the queries that
    succeeded. *)
Theorem searchRedHatVideos_every_topic (topics : list string) :
  let query topic := "site:tv.redhat.com " +:+ quoted topic in
  let out := searchRedHatVideos URL_hostname uddg_param maxResults network topics in
  requests out = map query topics /\
  results out =
    deduplicateResults
      (concat (imap (fun i topic => answer "Red Hat Videos" i (query topic)) topics)).
Proof.
  intros query out. unfold out, searchRedHatVideos.
  change videos_queries with (fun topic => [query topic]).
  rewrite category_search_single_query. split; reflexivity.
Qed.

(** Where a collected result comes from: a query that was sent. *)
Local Abbreviation collected source st :=
  (Forall (fun r => exists query, emitted source query r /\ query ∈ issued st)
          (searchResults st)).

Lemma collected_mono (source : string) (sent sent' : list string)
    (rs : list ContentResult) :
  (forall q, q ∈ sent -> q ∈ sent') ->
  Forall (fun r => exists query, emitted source query r /\ query ∈ sent) rs ->
  Forall (fun r => exists query, emitted source query r /\ query ∈ sent') rs.
Proof.
  intros Hsub H. eapply Forall_impl; [exact H|].
  intros r [q [He Hq]]. exists q. split; [exact He | auto].
Qed.

Lemma query_turn (source query : string) (st : Search) :
  (results <- performDuckDuckGoSearch query source ;; push_results results) st =
  match network (length (issued st)) query with
  | Failed _ =>
      (Throw "Spread syntax requires ...iterable[Symbol.iterator] to be a function",
       {| issued := issued st ++ [query]; searchResults := searchResults st |})
  | Page doc =>
      (Normal tt,
       {| issued := issued st ++ [query];
          searchResults := searchResults st ++ scrape source query doc |})
  end.
Proof.
  unfold bind. rewrite performDuckDuckGoSearch_returns.
  destruct (network (length (issued st)) query); reflexivity.
Qed.

(** The loop over the queries of one topic sends a prefix of them, the
    first one at least. *)
Lemma query_loop (source : string) (queries : list string) (st : Search) :
  let st' := snd (for_of queries (fun query =>
                    results <- performDuckDuckGoSearch query source ;;
                    push_results results) st) in
  (exists n, (n <= length queries)%nat /\ (queries <> [] -> (1 <= n)%nat) /\
             issued st' = issued st ++ firstn n queries) /\
  (collected source st -> collected source st').
Proof.
  cbv zeta. revert st. induction queries as [|q qs IH]; intros st.
  - simpl. split; [|trivial]. exists 0%nat. simpl. rewrite app_nil_r.
    repeat split; [lia | congruence].
  - rewrite for_of_cons. cbv beta. rewrite query_turn.
    destruct (network (length (issued st)) q) as [e|doc] eqn:Hn.
    + simpl. split.
      * exists 1%nat. simpl. repeat split; lia.
      * apply collected_mono. intros x Hx. apply elem_of_app. now left.
    + match goal with |- context [for_of qs ?body ?s] =>
        specialize (IH s); destruct IH as [[n [Hn1 [Hn2 Hn3]]] Hc]
      end.
      split.
      * exists (S n). simpl. repeat split; [lia | lia |].
        rewrite Hn3. simpl. now rewrite <- app_assoc.
      * intros Hst. apply Hc. simpl. apply Forall_app. split.
        -- revert Hst. apply collected_mono. intros x Hx. apply elem_of_app. now left.
        -- pose proof (scrape_emitted URL_hostname uddg_param maxResults source q doc)
             as He.
           eapply Forall_impl; [exact He|]. intros r Hr. exists q. split; [exact Hr|].
           apply elem_of_app. right. left.
Qed.

(** The [catch] of a topic turns every completion of its loop into a
    normal one and keeps the state. *)
Lemma topic_turn (body : Eff unit) (st : Search) :
  try_catch body (fun _ => ret tt) st = (Normal tt, snd (body st)).
Proof. unfold try_catch, ret. destruct (body st) as [[[]|e] st1]; reflexivity. Qed.

Lemma topic_loop (queries : string -> list string) (source : string)
    (topics : list string) (st : Search) :
  (forall topic, queries topic <> []) ->
  let st' := snd (search_topics queries source topics st) in
  (exists sent, issued st' = issued st ++ sent /\
                sent `sublist_of` flat_map queries topics /\
                (length topics <= length sent)%nat) /\
  (collected source st -> collected source st').
Proof.
  intros Hq. cbv zeta. unfold Content.search_topics. revert st.
  induction topics as [|topic rest IH]; intros st.
  - simpl. split; [|trivial]. exists []. rewrite app_nil_r.
    repeat split; [constructor | simpl; lia].
  - rewrite for_of_cons. cbv beta. rewrite topic_turn.
    pose proof (query_loop source (queries topic) st) as Hloop. cbv zeta in Hloop.
    destruct Hloop as [[n [Hn1 [Hn2 Hn3]]] Hc1].
    match goal with |- context [for_of rest ?body ?s] =>
      specialize (IH s); destruct IH as [[sent [Hs1 [Hs2 Hs3]]] Hc2]
    end.
    split; [|intros H; apply Hc2, Hc1, H].
    exists (firstn n (queries topic) ++ sent).
    rewrite Hs1, Hn3, <- app_assoc. split; [reflexivity|]. split.
    + simpl. apply sublist_app; [apply sublist_take | exact Hs2].
    + rewrite length_app, length_take. specialize (Hn2 (Hq topic)). simpl. lia.
Qed.

(** [searchRedHatTraining] never fails.  It sends the first query of every
    topic at least and at most the two of each, in order.  Its output is
    deduplicated, and each of its results has a title that is not empty and
    was emitted, under the label of the search, for a query that was sent. *)
Theorem searchRedHatTraining_invariants (topics : list string) :
  let out := searchRedHatTraining URL_hostname uddg_param maxResults network topics in
  (length topics <= length (requests out) <= 2 * length topics)%nat /\
  requests out `sublist_of` flat_map training_queries topics /\
  deduplicateResults (results out) = results out /\
  Forall (fun r => title r <> "" /\
                   exists query, emitted "Red Hat Training" query r /\
                                 query ∈ requests out)
         (results out).
Proof.
  intros out. unfold out, searchRedHatTraining.
  destruct (category_search_returns URL_hostname uddg_param maxResults network
              training_queries "Red Hat Training" topics) as [st [Hst ->]].
  pose proof (topic_loop training_queries "Red Hat Training" topics
                {| issued := []; searchResults := [] |}) as H.
  rewrite Hst in H. simpl in H.
  destruct H as [[sent [Hs1 [Hs2 Hs3]]] Hc]; [discriminate|].
  simpl. rewrite Hs1. split; [|split; [|split]].
  - split; [exact Hs3|]. apply sublist_length in Hs2.
    assert (Hlen : length (flat_map training_queries topics) = (2 * length topics)%nat).
    { clear. induction topics as [|t ts IH]; simpl; [reflexivity | rewrite IH; lia]. }
    lia.
  - exact Hs2.
  - pose proof (deduplicateResults_inner URL_hostname [] (searchResults st) []) as Hd.
    rewrite !app_nil_l, !app_nil_r in Hd. exact Hd.
  - apply Forall_forall. intros r Hr. split.
    + now apply deduplicateResults_valid in Hr.
    + assert (Hc' := Hc ltac:(constructor)). rewrite Forall_forall in Hc'.
      rename Hc' into Hall.
      rewrite Hs1 in Hall. apply Hall.
      rewrite deduplicateResults_perm in Hr.
      eapply elem_of_sublist; [exact Hr | apply first_seen_sublist].
Qed.

End CategoryFacts.

(** ** The aggregated result *)

Section AggregatorFacts.

Import JS Content Aggregator.

Variable URL_hostname : string -> option string.
Variable uddg_param : string -> option string.
Variable maxResults : Z.
Variable network_docs network_training network_videos : nat -> string -> Response.

Local Abbreviation dedup_key := (dedup_key URL_hostname).
Local Abbreviation deduplicateResults := (deduplicateResults URL_hostname).
Local Abbreviation seen_keys := (seen_keys URL_hostname).
Local Abbreviation searchAllSources :=
  (searchAllSources URL_hostname uddg_param maxResults
     network_docs network_training network_videos).

(** The list [all] that [searchAllSources] returns is the deduplication of
    everything the three searches collected, as if they had been one search.
    It is itself deduplicated, made of results of the three category lists,
    and it has a result for every key of those lists. *)
Theorem searchAllSources_all (topics : list string) :
  let found := searchAllSources topics in
  (exists docs trainings vids,
     fst (search_topics URL_hostname uddg_param maxResults network_docs
            docs_queries "Red Hat Docs" topics
            {| issued := []; searchResults := [] |}) = Normal tt /\
     docs = searchResults
              (snd (search_topics URL_hostname uddg_param maxResults network_docs
                      docs_queries "Red Hat Docs" topics
                      {| issued := []; searchResults := [] |})) /\
     trainings = searchResults
              (snd (search_topics URL_hostname uddg_param maxResults network_training
                      training_queries "Red Hat Training" topics
                      {| issued := []; searchResults := [] |})) /\
     vids = searchResults
              (snd (search_topics URL_hostname uddg_param maxResults network_videos
                      videos_queries "Red Hat Videos" topics
                      {| issued := []; searchResults := [] |})) /\
     documentation found = deduplicateResults docs /\
     training found = deduplicateResults trainings /\
     videos found = deduplicateResults vids /\
     all found = deduplicateResults (docs ++ trainings ++ vids)) /\
  deduplicateResults (all found) = all found /\
  Forall (fun r => r ∈ documentation found \/ r ∈ training found \/ r ∈ videos found)
         (all found) /\
  (forall r, r ∈ documentation found ++ training found ++ videos found ->
             exists r', r' ∈ all found /\ dedup_key r' = dedup_key r).
Proof.
  intros found. unfold found, Aggregator.searchAllSources, settle, value_or_empty.
  cbn [documentation training videos all].
  unfold searchRedHatDocs, searchRedHatTraining, searchRedHatVideos.
  destruct (category_search_returns URL_hostname uddg_param maxResults network_docs
              docs_queries "Red Hat Docs" topics) as [sd [Hd ->]].
  destruct (category_search_returns URL_hostname uddg_param maxResults network_training
              training_queries "Red Hat Training" topics) as [st [Ht ->]].
  destruct (category_search_returns URL_hostname uddg_param maxResults network_videos
              videos_queries "Red Hat Videos" topics) as [sv [Hv ->]].
  cbn [results]. split; [|split; [|split]].
  - exists (searchResults sd), (searchResults st), (searchResults sv).
    rewrite Hd, Ht, Hv. simpl. repeat split.
    apply (deduplicateResults_of_deduplicated_helper URL_hostname).
  - pose proof (deduplicateResults_inner URL_hostname []
                  (deduplicateResults (searchResults sd) ++
                   deduplicateResults (searchResults st) ++
                   deduplicateResults (searchResults sv)) []) as H.
    rewrite !app_nil_l, !app_nil_r in H. exact H.
  - apply Forall_forall. intros r Hr. rewrite deduplicateResults_perm in Hr.
    assert (Hin := elem_of_sublist _ _ _ Hr (first_seen_sublist URL_hostname ∅ _)).
    rewrite !elem_of_app in Hin. exact Hin.
  - intros r Hr.
    destruct (deduplicateResults_keeps_keys_helper URL_hostname
                (deduplicateResults (searchResults sd) ++
                 deduplicateResults (searchResults st) ++
                 deduplicateResults (searchResults sv)) r Hr) as [r' H]; [|now exists r'].
    rewrite !elem_of_app in Hr.
    destruct Hr as [Hr | [Hr | Hr]]; apply deduplicateResults_valid in Hr as [H1 H2];
      unfold has_title_and_url; apply andb_true_iff; split; now apply truthy_spec.
Qed.

End AggregatorFacts.

(** ** The canned results *)

Section FallbackFacts.

Import JS Content Fallbacks.






(** With a negative [maxResults] the slice counts from the end, and more
    than three canned results can come back. *)
Example generateFallbackResults_negative :
  length (generateFallbackResults (-1) "openshift ansible linux training" "Red Hat Docs") = 5%nat.
Proof. reflexivity. Qed.

End FallbackFacts.

(** ** The prompt *)

Section PromptFacts.

Import JS LLM.

Lemma append_empty_r (a : string) : a +:+ "" = a.
Proof.
  induction a as [|x a IH]; [reflexivity|]. rewrite append_cons. now rewrite IH.
Qed.

Lemma includes_refl (s : string) : includes s s = true.
Proof. apply includes_spec. exists "", "". now rewrite append_nil, append_empty_r. Qed.

Lemma includes_prefix (a b : string) : includes (a +:+ b) a = true.
Proof. apply includes_app_l, includes_refl. Qed.

Lemma includes_suffix (a b : string) : includes (a +:+ b) b = true.
Proof. apply includes_app_r, includes_refl. Qed.

Lemma join_cons (sep x y : string) (rest : list string) :
  join sep (x :: y :: rest) = x +:+ sep +:+ join sep (y :: rest).
Proof. reflexivity. Qed.

Lemma includes_join (sep : string) (xs : list string) (x : string) :
  x ∈ xs -> includes (join sep xs) x = true.
Proof.
  induction xs as [|y [|z rest] IH]; intros Hx.
  - now apply elem_of_nil in Hx.
  - apply list_elem_of_singleton in Hx as ->. apply includes_refl.
  - rewrite join_cons. apply elem_of_cons in Hx as [->|Hx].
    + apply includes_prefix.
    + now apply includes_app_r, includes_app_r, IH.
Qed.

Lemma includes_concat (xs : list string) (x : string) :
  x ∈ xs -> includes (String.concat "" xs) x = true.
Proof.
  induction xs as [|y [|z rest] IH]; intros Hx.
  - now apply elem_of_nil in Hx.
  - apply list_elem_of_singleton in Hx as ->. apply includes_refl.
  - change (String.concat "" (y :: z :: rest))
      with (y +:+ "" +:+ String.concat "" (z :: rest)).
    apply elem_of_cons in Hx as [->|Hx].
    + apply includes_prefix.
    + now apply includes_app_r, includes_app_r, IH.
Qed.

(** An entry of a section that is not empty is in the text of the
    section. *)
Lemma includes_section (heading : string) (entry : nat -> Resource -> string)
    (rs : list Resource) (i : nat) (r : Resource) :
  rs !! i = Some r ->
  includes (section heading entry (Some rs)) (entry i r) = true.
Proof.
  intros Hi. unfold section. destruct rs as [|r0 rs']; [discriminate|].
  apply includes_app_r, includes_concat.
  apply list_elem_of_lookup. exists i. rewrite list_lookup_imap, Hi. reflexivity.
Qed.

(** The user prompt carries the whole profile and every resource of the
    three lists it reads: each interest and goal, the three free-text
    fields, and for the [i]-th resource of a list its number [i + 1] with
    its title, its URL and its description. *)
Theorem buildUserPrompt_embeds (userProfile : UserProfile)
    (searchResults : SearchResults) :
  let prompt := buildUserPrompt userProfile searchResults in
  (forall x, x ∈ interests userProfile -> includes prompt x = true) /\
  (forall x, x ∈ goals userProfile -> includes prompt x = true) /\
  includes prompt ("- Experience Level: " +:+ experience userProfile) = true /\
  includes prompt ("- Available Time Commitment: " +:+ timeCommitment userProfile) = true /\
  includes prompt ("- Preferred Learning Style: " +:+ preferredLearningStyle userProfile) = true /\
  (forall key rs i r,
     (key = tv \/ key = documentation \/ key = training) ->
     key searchResults = Some rs -> rs !! i = Some r ->
     includes prompt (number_string (i + 1) +:+ ". " +:+ title r) = true /\
     includes prompt ("   URL: " +:+ url r) = true /\
     includes prompt ("   Description: " +:+ description r) = true).
Proof.
  intros prompt. unfold prompt, buildUserPrompt.
  split; [|split; [|split; [|split; [|split]]]].
  - intros x Hx. apply includes_app_l.
    eapply includes_trans; [|apply (includes_join ", " _ _ Hx)].
    eapply includes_trans; [|apply includes_suffix].
    apply includes_join. do 3 right. left.
  - intros x Hx. apply includes_app_l.
    eapply includes_trans; [|apply (includes_join ", " _ _ Hx)].
    eapply includes_trans; [|apply includes_suffix].
    apply includes_join. do 5 right. left.
  - apply includes_app_l, includes_join. do 4 right. left.
  - apply includes_app_l, includes_join. do 6 right. left.
  - apply includes_app_l, includes_join. do 7 right. left.
  - intros key rs i r Hkey Hrs Hi.
    assert (Hentry : forall heading entry piece,
              includes (entry i r) piece = true ->
              includes (section heading entry (key searchResults)) piece = true).
    { intros heading entry piece Hp. rewrite Hrs.
      eapply includes_trans; [apply (includes_section _ _ _ _ _ Hi) | exact Hp]. }
    destruct Hkey as [-> | [-> | ->]].
    + repeat split; apply includes_app_r, includes_app_l, Hentry;
        apply includes_join; repeat first [left | right; left | right].
    + repeat split; apply includes_app_r, includes_app_r, includes_app_l, Hentry;
        apply includes_join; repeat first [left | right; left | right].
    + repeat split; do 3 apply includes_app_r; apply includes_app_l, Hentry;
        apply includes_join; repeat first [left | right; left | right].
Qed.

End PromptFacts.

(** ** The text handed to the JSON parser *)

Section ExtractFacts.

Import JS LLM.

Lemma trimStart_app (pre : string) (c : ascii) (x : string) :
  is_space c = false ->
  trimStart (pre +:+ String c x) = trimStart pre +:+ String c x.
Proof.
  intros Hc. induction pre as [|a pre IH].
  - rewrite append_nil. simpl. now rewrite Hc.
  - rewrite append_cons. simpl. destruct (is_space a); [exact IH|].
    now rewrite append_cons.
Qed.

Lemma trimEnd_app (a : string) (c : ascii) (post : string) :
  is_space c = false ->
  trimEnd (a +:+ String c post) = a +:+ String c (trimEnd post).
Proof.
  intros Hc. induction a as [|x a IH].
  - rewrite !append_nil. simpl. now rewrite Hc.
  - rewrite !append_cons. simpl. rewrite IH.
    destruct a; [rewrite append_nil | rewrite append_cons]; simpl;
      now rewrite andb_false_r.
Qed.

Lemma trimStart_suffix (s : string) : exists ws, s = ws +:+ trimStart s.
Proof.
  induction s as [|c s [ws IH]]; [now exists ""|]. simpl.
  destruct (is_space c).
  - exists (String c ws). rewrite append_cons. now rewrite <- IH.
  - now exists "".
Qed.

Lemma trimEnd_prefix (s : string) : exists ws, s = trimEnd s +:+ ws.
Proof.
  induction s as [|c s [ws IH]]; [now exists ""|]. simpl.
  destruct (is_space c && is_empty (trimEnd s)).
  - exists (String c s). reflexivity.
  - exists ws. rewrite append_cons. now rewrite <- IH.
Qed.

Lemma includes_false_app (a b k : string) :
  includes (a +:+ b) k = false -> includes a k = false /\ includes b k = false.
Proof.
  intros H. split.
  - destruct (includes a k) eqn:Ha; [|reflexivity].
    apply includes_app_l with (b := b) in Ha. congruence.
  - destruct (includes b k) eqn:Hb; [|reflexivity].
    apply includes_app_r with (a := a) in Hb. congruence.
Qed.

Lemma includes_char_cons (c a : ascii) (s : string) :
  includes (String a s) (String c "") = false ->
  Ascii.eqb a c = false /\ includes s (String c "") = false.
Proof.
  simpl. rewrite Ascii.eqb_sym. destruct (Ascii.eqb a c); simpl; [discriminate|].
  intros H. split; [reflexivity | exact H].
Qed.

Lemma from_first_skip (c : ascii) (pre x : string) :
  includes pre (String c "") = false ->
  from_first c (pre +:+ String c x) = Some (String c x).
Proof.
  induction pre as [|a pre IH]; intros H.
  - rewrite append_nil. simpl. now rewrite Ascii.eqb_refl.
  - apply includes_char_cons in H as [Ha H]. rewrite append_cons. simpl.
    rewrite Ha. now apply IH.
Qed.

Lemma through_last_none (c : ascii) (post : string) :
  includes post (String c "") = false -> through_last c post = None.
Proof.
  induction post as [|a post IH]; intros H; [reflexivity|].
  apply includes_char_cons in H as [Ha H]. simpl. now rewrite (IH H), Ha.
Qed.

Lemma through_last_app (c : ascii) (a post : string) :
  includes post (String c "") = false ->
  through_last c (a +:+ String c post) = Some (a +:+ String c "").
Proof.
  intros H. induction a as [|x a IH].
  - rewrite !append_nil. simpl. now rewrite (through_last_none _ _ H), Ascii.eqb_refl.
  - rewrite !append_cons. simpl. now rewrite IH.
Qed.

(** Prose around the JSON object is dropped: when the answer of the model
    is one brace block with text before it that has no opening brace and text
    after it that has no closing brace (a sentence, a code fence), the text
    handed to [JSON.parse] is the brace block alone. *)
Theorem extract_json_strips_prose (pre body post : string) :
  includes pre "{" = false -> includes post "}" = false ->
  extract_json (pre +:+ "{" +:+ body +:+ "}" +:+ post) = "{" +:+ body +:+ "}".
Proof.
  intros Hpre Hpost. unfold extract_json, trim.
  change (pre +:+ "{" +:+ body +:+ "}" +:+ post)
    with (pre +:+ String "{" (body +:+ String "}" post)).
  change ("{" +:+ body +:+ "}") with (String "{" (body +:+ "}")).
  rewrite trimStart_app by reflexivity.
  assert (Hassoc : forall tail,
            trimStart pre +:+ String "{" (body +:+ String "}" tail) =
            (trimStart pre +:+ String "{" body) +:+ String "}" tail).
  { intros tail. rewrite append_assoc. now rewrite append_cons. }
  rewrite Hassoc, trimEnd_app by reflexivity. rewrite <- Hassoc.
  destruct (trimStart_suffix pre) as [ws Hws].
  assert (Hpre' : includes (trimStart pre) "{" = false).
  { rewrite Hws in Hpre. now apply includes_false_app in Hpre as [_ H]. }
  destruct (trimEnd_prefix post) as [ws' Hws'].
  assert (Hpost' : includes (trimEnd post) "}" = false).
  { rewrite Hws' in Hpost. now apply includes_false_app in Hpost as [H _]. }
  unfold match_braces. rewrite (from_first_skip _ _ _ Hpre').
  rewrite <- (append_cons "{" body (String "}" (trimEnd post))).
  rewrite (through_last_app _ _ _ Hpost'). now rewrite append_cons.
Qed.

Lemma extract_json_strips_prose_witness :
  includes "Here is your plan: " "{" = false /\
  includes " Enjoy!" "}" = false /\
  extract_json ("Here is your plan: " +:+ "{" +:+ "a {b} c" +:+ "}" +:+ " Enjoy!") =
    "{" +:+ "a {b} c" +:+ "}".
Proof.
  split; [reflexivity|]. split; [reflexivity|].
  apply (extract_json_strips_prose "Here is your plan: " "a {b} c" " Enjoy!");
    reflexivity.
Defined.

End ExtractFacts.

(** ** The connection test *)

Section DiagnosticsFacts.

Import JS LLM Diagnostics Shape.

Variable model : string.
Variable ollamaHost : string.
Variable ollama_list : completion (list string).
Variable ollama_generate : string -> completion string.

(** [testConnection] never throws.  It succeeds exactly when the list of
    models can be read, holds the configured name, and the greeting request
    returns; it then reports the trimmed reply with the model and the host.
    Otherwise it reports one error message and nothing else. *)
Theorem testConnection_report :
  let result := testConnection model ollamaHost ollama_list ollama_generate in
  (success result = true <->
   (exists names, ollama_list = Normal names /\ model ∈ names) /\
   exists text, ollama_generate greeting = Normal text) /\
  (forall text,
     success result = true -> ollama_generate greeting = Normal text ->
     response result = Some (trim text) /\ trimmed (trim text) /\
     tested_model result = Some model /\ host result = Some ollamaHost /\
     test_error result = None) /\
  (success result = false ->
   response result = None /\ tested_model result = None /\ host result = None /\
   exists message, test_error result = Some message).
Proof.
  intros result. unfold result, testConnection.
  pose proof (healthy_iff model ollama_list) as Hh.
  destruct (healthy (checkOllamaHealth model ollama_list)) eqn:He; simpl.
  - destruct (ollama_generate greeting) as [text|message] eqn:Hg; simpl.
    + split; [|split].
      * split; [intros _|reflexivity]. split; [now apply Hh | now exists text].
      * intros text' _ [= <-]. split; [reflexivity|].
        split; [apply trim_trimmed|]. repeat split.
      * discriminate.
    + split; [|split].
      * split; [discriminate|]. intros [_ [text Ht]]. discriminate.
      * discriminate.
      * intros _. repeat split. now exists message.
  - split; [|split].
    + split; [discriminate|]. intros [Hi _]. apply Hh in Hi. discriminate.
    + discriminate.
    + intros _. repeat split. eexists. reflexivity.
Qed.

End DiagnosticsFacts.

(** ** The request handlers *)

Section RouteFacts.

Import JS Routes.

Variable Details : Type.
Variable URL_hostname : string -> option string.
Variable uddg_param : string -> option string.
Variable maxResults : Z.
Variable network_docs network_training network_videos : nat -> string -> Content.Response.
Variable JSON_parse : string -> LLM.completion LLM.value.
Variable model : string.
Variable ollama_list_first ollama_list_second : LLM.completion (list string).
Variable ollama_generate : string -> LLM.completion string.
Variable systemPrompt : string.
Variable llmService : bool.

Local Abbreviation generate_with videos_network :=
  (@generate Details URL_hostname uddg_param maxResults
     network_docs network_training videos_network
     JSON_parse model ollama_list_first ollama_list_second ollama_generate
     systemPrompt llmService).
Local Abbreviation generate := (generate_with network_videos).
Local Abbreviation searchAllSources :=
  (searchAllSources URL_hostname uddg_param maxResults
     network_docs network_training network_videos).
Local Abbreviation search :=
  (@search Details URL_hostname uddg_param maxResults
     network_docs network_training network_videos).
Local Abbreviation deduplicateResults := (Content.deduplicateResults URL_hostname).

Lemma parseLearningPathResponse_keys (response : string) :
  exists t p,
    LLM.get (LLM.parseLearningPathResponse JSON_parse response) "title"
      = LLM.Normal (Some t) /\ t <> LLM.Null /\
    LLM.get (LLM.parseLearningPathResponse JSON_parse response) "phases"
      = LLM.Normal (Some p) /\ p <> LLM.Null.
Proof.
  unfold LLM.parseLearningPathResponse.
  destruct (LLM.parse_body JSON_parse response) as [parsed|message] eqn:Hb.
  - apply (parse_body_accepts JSON_parse model ollama_generate) in Hb
      as [_ [t [p [Ht [Htt [Hp Hpp]]]]]].
    exists t, p. split; [exact Ht|]. split; [now apply truthy_not_null|].
    split; [exact Hp | now apply truthy_not_null].
  - eexists _, _. split; [reflexivity|]. split; [discriminate|].
    split; [reflexivity | discriminate].
Qed.

Lemma deduplicateResults_length (results : list Content.ContentResult) :
  (length (deduplicateResults results) <= length results)%nat.
Proof.
  rewrite (Permutation_length (deduplicateResults_perm URL_hostname results)).
  apply sublist_length, first_seen_sublist.
Qed.

(** The prompt the [generate] handler sends for a profile. *)
Local Abbreviation prompt_for userProfile :=
  (systemPrompt +:+ LLM.nl +:+ LLM.nl +:+
   LLM.buildUserPrompt userProfile
     (prompt_view
        (searchAllSources
           (Content.extractTopics
              (join " " (LLM.interests userProfile ++ LLM.goals userProfile)))))).

Local Abbreviation installed models :=
  (exists names, models = LLM.Normal names /\ model ∈ names).

(** The replies of the [generate] handler.  An invalid body gives 400, a
    model that is not installed at the first check gives 503.  The answer is
    200 exactly when the body is valid, the service exists, both health
    checks find the model and the generation request returns, whatever the
    model wrote: the learning path then has a [title] and [phases] that are
    present and not null, and the topics are those of the interests and goals
    joined by spaces.  A model that disappears between the two checks, or a
    failed generation request, is handed to the framework as an error. *)
Theorem generate_replies (validation : Validation Details LLM.UserProfile) :
  let reply := generate validation in
  (forall errors, validation = Invalid errors ->
                  reply = Respond 400 (ValidationFailed errors)) /\
  (forall userProfile,
     validation = Valid userProfile -> llmService = true ->
     ~ installed ollama_list_first ->
     exists details, reply = Respond 503 (ServiceUnavailable details)) /\
  (forall userProfile,
     validation = Valid userProfile -> llmService = true ->
     installed ollama_list_first ->
     ~ installed ollama_list_second \/
     (exists message, ollama_generate (prompt_for userProfile) = LLM.Throw message) ->
     exists message, reply = Next message) /\
  ((exists body, reply = Respond 200 body) <->
   exists userProfile text,
     validation = Valid userProfile /\ llmService = true /\
     installed ollama_list_first /\ installed ollama_list_second /\
     ollama_generate (prompt_for userProfile) = LLM.Normal text) /\
  (forall body,
     reply = Respond 200 body ->
     exists userProfile learningPath contentSources t p,
       validation = Valid userProfile /\
       body = Generated learningPath contentSources
                (Content.extractTopics
                   (join " " (LLM.interests userProfile ++ LLM.goals userProfile))) /\
       LLM.get learningPath "title" = LLM.Normal (Some t) /\ t <> LLM.Null /\
       LLM.get learningPath "phases" = LLM.Normal (Some p) /\ p <> LLM.Null /\
       (totalResources contentSources <=
        documentationCount contentSources + trainingCount contentSources +
        videosCount contentSources)%nat).
Proof.
  intros reply. unfold reply, Routes.generate.
  destruct validation as [errors|userProfile].
  { repeat split; try naive_solver. }
  destruct llmService.
  2:{ simpl. repeat split; try naive_solver. }
  simpl negb. cbv iota.
  pose proof (healthy_iff model ollama_list_first) as H1.
  destruct (LLM.healthy (LLM.checkOllamaHealth model ollama_list_first)) eqn:He1; simpl.
  2:{ split; [discriminate|]. split; [intros; eexists; reflexivity|].
      split; [intros u _ _ Hi; apply H1 in Hi; discriminate|].
      split; [|intros; discriminate].
      split; [intros [b H]; discriminate|].
      intros [u [t [_ [_ [Hi _]]]]]. apply H1 in Hi. discriminate. }
  unfold LLM.generateLearningPath, LLM.generate_body.
  pose proof (healthy_iff model ollama_list_second) as H2.
  destruct (LLM.healthy (LLM.checkOllamaHealth model ollama_list_second)) eqn:He2; simpl.
  2:{ split; [discriminate|]. split; [intros u _ _ Hn; exfalso; now apply Hn, H1|].
      split; [intros; eexists; reflexivity|].
      split; [|intros; discriminate].
      split; [intros [b H]; discriminate|].
      intros [u [t [_ [_ [_ [Hi _]]]]]]. apply H2 in Hi. discriminate. }
  destruct (ollama_generate _) as [text|message] eqn:Hg; simpl.
  - split; [discriminate|]. split; [intros u _ _ Hn; exfalso; now apply Hn, H1|].
    split.
    { intros u [= <-] _ _ [Hn | [m Hm]]; [exfalso; now apply Hn, H2|].
      discriminate (eq_trans (eq_sym Hg) Hm). }
    split.
    + split; [intros _|intros _; eexists; reflexivity].
      exists userProfile, text. repeat split; [now apply H1 | now apply H2 | exact Hg].
    + intros body [= <-].
      destruct (parseLearningPathResponse_keys text) as [t [p [Ht [Htn [Hp Hpn]]]]].
      eexists userProfile, _, _, t, p. split; [reflexivity|]. split; [reflexivity|].
      split; [exact Ht|]. split; [exact Htn|]. split; [exact Hp|]. split; [exact Hpn|].
      cbn [totalResources documentationCount trainingCount videosCount].
      etransitivity; [apply deduplicateResults_length|].
      rewrite !length_app. lia.
  - split; [discriminate|]. split; [intros u _ _ Hn; exfalso; now apply Hn, H1|].
    split; [intros; eexists; reflexivity|].
    split; [|intros; discriminate].
    split; [intros [b H]; discriminate|].
    intros [u [t [[= <-] [_ [_ [_ Ht]]]]]].
    discriminate (eq_trans (eq_sym Hg) Ht).
Qed.

(** The videos never reach the model.  The handler passes the object of
    [searchAllSources] to the prompt builder, which reads the key [tv]; the
    videos are under [videos].  So whatever the video search finds, the
    handler gives the same status, the same learning path and the same
    topics; only the counts of the metadata differ. *)
Theorem generate_ignores_videos (other_videos : nat -> string -> Content.Response)
    (validation : Validation Details LLM.UserProfile) :
  without_counts (generate_with other_videos validation) =
  without_counts (generate validation).
Proof.
  unfold Routes.generate. destruct validation as [errors|userProfile]; [reflexivity|].
  destruct llmService; [|reflexivity]. simpl negb. cbv iota.
  destruct (negb (LLM.healthy (LLM.checkOllamaHealth model ollama_list_first)));
    [reflexivity|].
  unfold Routes.searchAllSources, Aggregator.searchAllSources, prompt_view.
  cbn [Aggregator.documentation Aggregator.training].
  destruct (LLM.generateLearningPath _ _ _ _ _ _ _); reflexivity.
Qed.


(** A search for the documentation alone answers with the list of the
    documentation search under [documentation] and under [all] alike: the
    second deduplication neither drops nor reorders anything. *)
Theorem search_documentation_only (request : SearchRequest) :
  has_source "all" (sources request) = false ->
  has_source "tv" (sources request) = false ->
  has_source "documentation" (sources request) = true ->
  has_source "training" (sources request) = false ->
  let found :=
    Content.results
      (Content.searchRedHatDocs URL_hostname uddg_param maxResults network_docs
         (topics request)) in
  search (Valid request) =
  Respond 200
    (SearchResults
       {| tv := None; documentation := Some found; training := None;
          videos := None; all := found |}
       (length found)).
Proof.
  intros Hall Htv Hdoc Htr found. unfold Routes.search.
  rewrite Hall, Htv, Hdoc, Htr. cbn [or_empty all]. rewrite app_nil_l, app_nil_r.
  assert (Hfix : deduplicateResults found = found).
  { unfold found, Content.searchRedHatDocs.
    destruct (category_search_returns URL_hostname uddg_param maxResults network_docs
                Content.docs_queries "Red Hat Docs" (topics request)) as [st [_ ->]].
    cbn [Content.results].
    pose proof (deduplicateResults_inner URL_hostname [] (Content.searchResults st) []) as Hd.
    rewrite !app_nil_l, !app_nil_r in Hd. exact Hd. }
  fold found. now rewrite Hfix.
Qed.

End RouteFacts.


Lemma search_documentation_only_witness :
  Routes.has_source "all" ["documentation"] = false /\
  Routes.has_source "documentation" ["documentation"] = true /\
  exists found,
    @Routes.search unit Platform.plain_http_hostname (fun _ => None) 15
      (fun _ _ => Content.Page (Samples.page_of [Samples.ansible_row]))
      Samples.first_request_fails Samples.first_request_fails
      (Routes.Valid {| Routes.topics := ["ansible"];
                       Routes.sources := ["documentation"] |}) =
    Routes.Respond 200
      (Routes.SearchResults
         {| Routes.tv := None; Routes.documentation := Some found;
            Routes.training := None; Routes.videos := None; Routes.all := found |}
         (length found)).
Proof.
  split; [reflexivity|]. split; [reflexivity|].
  eexists.
  apply (search_documentation_only unit Platform.plain_http_hostname (fun _ => None) 15
           (fun _ _ => Content.Page (Samples.page_of [Samples.ansible_row]))
           Samples.first_request_fails Samples.first_request_fails
           {| Routes.topics := ["ansible"]; Routes.sources := ["documentation"] |});
    reflexivity.
Defined.

(** ** More on the classifier *)

Section ClassifierMore.

Import JS Content.

Lemma truthy_toLowerCase (s : string) : truthy (toLowerCase s) = truthy s.
Proof. destruct s; reflexivity. Qed.

Lemma toLowerCase_twice (s : string) : toLowerCase (toLowerCase s) = toLowerCase s.
Proof.
  induction s as [|c s IH]; simpl; [reflexivity|].
  rewrite IH. f_equal. destruct c as [[] [] [] [] [] [] [] []]; vm_compute; reflexivity.
Qed.

(** The label of a result does not depend on the letter case of its URL and
    title. *)
Theorem determineContentType_case_insensitive (url title : string) :
  determineContentType (toLowerCase url) (toLowerCase title) =
  determineContentType url title.
Proof.
  unfold determineContentType.
  now rewrite truthy_toLowerCase, !toLowerCase_twice.
Qed.

Lemma hasRedHatKeywords_spec (title url description : string) :
  hasRedHatKeywords title url description = true <->
  exists keyword,
    keyword ∈ redhatKeywords /\
    includes (toLowerCase (title +:+ " " +:+ url +:+ " " +:+ description)) keyword = true.
Proof.
  unfold hasRedHatKeywords. rewrite existsb_exists.
  split; intros [k [Hk H]]; exists k; split; try exact H; now apply list_elem_of_In.
Qed.

(** A result is relevant only if one of the keywords occurs in the
    lower-cased text made of the title, the URL and the description joined by
    single spaces.  Every URL that contains a domain of the list makes that
    text contain a keyword, so the domain list of [isRedHatRelated] never
    decides; and for a URL without [youtube.com] the result is relevant
    exactly when a keyword occurs in that text. *)
Theorem isRedHatRelated_needs_keyword (title url description : string) :
  let content := toLowerCase (title +:+ " " +:+ url +:+ " " +:+ description) in
  (isRedHatRelated title url description = true ->
   exists keyword, keyword ∈ redhatKeywords /\ includes content keyword = true) /\
  ((exists domain, domain ∈ redhatDomains /\
                   includes (toLowerCase url) domain = true) ->
   exists keyword, keyword ∈ redhatKeywords /\ includes content keyword = true) /\
  (includes url "youtube.com" = false ->
   (isRedHatRelated title url description = true <->
    exists keyword, keyword ∈ redhatKeywords /\ includes content keyword = true)).
Proof.
  intros content. subst content.
  rewrite <- !hasRedHatKeywords_spec.
  assert (Hd : hasRedHatDomain url = true ->
               hasRedHatKeywords title url description = true)
    by apply domain_implies_keywords.
  unfold isRedHatRelated. split; [|split].
  - destruct (includes url "youtube.com").
    + intros H. now apply andb_true_iff in H as [H _].
    + intros H. apply orb_true_iff in H as [H | H]; [exact H | now apply Hd].
  - intros [d [Hin H]]. apply Hd. unfold hasRedHatDomain.
    apply existsb_exists. exists d. split; [now apply list_elem_of_In | exact H].
  - intros ->.
    destruct (hasRedHatKeywords title url description) eqn:Hk; [tauto|].
    destruct (hasRedHatDomain url) eqn:Hdom; [|simpl; tauto].
    specialize (Hd eq_refl). congruence.
Qed.

(** The keyword is looked for in the joined text, not in a field: the brand
    name can begin in the title and end in the URL. *)
Example isRedHatRelated_across_fields :
  isRedHatRelated "Big red" "hat.example.com" "" = true /\
  forallb (fun field =>
             forallb (fun keyword => negb (includes (toLowerCase field) keyword))
                     redhatKeywords)
          ["Big red"; "hat.example.com"; ""] = true.
Proof. split; reflexivity. Qed.

(** The stricter rule for the video-hosting domain looks at the URL as it
    is written, the other tests at the lower-cased text. *)
Example isRedHatRelated_youtube_case :
  isRedHatRelated "Intro" "https://www.youtube.com/watch?v=1" "Learn OpenShift today" = false /\
  isRedHatRelated "Intro" "https://www.YouTube.com/watch?v=1" "Learn OpenShift today" = true.
Proof. split; reflexivity. Qed.

End ClassifierMore.

(** ** The advertised capabilities *)

Section CapabilityFacts.

Import JS Routes.

(** The handler of [search-capabilities] reads three flags that
    [getSearchCapabilities] never sets: whatever the configuration, it
    recommends setting up the Google and YouTube APIs and reports web scraping
    as disabled. *)
Theorem recommendations_constant (maxResults searchTimeout : Z) :
  recommendations (getSearchCapabilities maxResults searchTimeout) =
  {| googleSearch :=
       "Consider setting up Google Custom Search API for better search results";
     youtubeApi := "Consider setting up YouTube API for enhanced video search";
     webScraping :=
       "Web scraping is disabled - API keys recommended for better results" |} /\
  (forall key,
     is_Some (property key (getSearchCapabilities maxResults searchTimeout)) <->
     key ∈ ["searchEngine"; "maxResults"; "searchTimeout"; "supportedSources";
            "supportedTypes"; "redHatDomains"]).
Proof.
  split; [reflexivity|]. intros key. unfold getSearchCapabilities.
  cbn [property].
  repeat match goal with
         | |- context [String.eqb ?k key] =>
             destruct (String.eqb_spec k key) as [<-|?]
         end.
  all: split.
  all: try (intros _; eexists; reflexivity).
  all: try (intros _; set_solver).
  all: try (intros [? H]; discriminate).
  all: intros H; exfalso; set_solver.
Qed.

End CapabilityFacts.
